(** * RoomRepository: the client-side mirror of the lobby

    A shallow embedding of [src/client/repository/RoomRepository.js]
    (curvytron) and the properties of its reconciliation policy.

    The repository object owns two pieces of state, [synced] and [rooms];
    it talks to two collaborators: the socket ([this.client.io.emit], the
    outbound side) and its own subscribers ([this.emit], inherited from
    EventEmitter).  Both collaborators are modelled by the trace of what
    was handed to them, oldest first.  Handlers are written in a small
    state-and-exception monad so that they read like the JavaScript. *)

From Stdlib Require Import String List Bool Arith Lia.
Import ListNotations.

Local Open Scope list_scope.

(** ** Keyed collection *)

Module Collection.

Section Keyed.

Context {T : Type}.

(** The configured key accessor: ['name'] for rooms, the client id for
    players. *)
Variable key : T -> string.

(** Modelled from the spec: the Collection class is not among the
    sources.  An ordered sequence of items, insertion order preserved. *)
Definition t := list T.

(** Modelled from the spec: [new Collection([], key)], the empty
    collection. *)
Definition new : list T := [].

Definition has_key (k : string) (x : T) : bool := String.eqb (key x) k.

(** Modelled from the spec: Collection.getById, which returns the item
    stored under the key, or the absent marker. *)
Definition getById (c : list T) (k : string) : option T :=
  find (has_key k) c.

(** Modelled from the spec: Collection.add, which inserts at the end and
    returns [true]; when an item with the same key is already present it
    returns [false] and leaves the collection as it was. *)
Definition add (x : T) (c : list T) : bool * list T :=
  match getById c (key x) with
  | Some _ => (false, c)
  | None => (true, c ++ [x])
  end.

Fixpoint remove_key (k : string) (c : list T) : list T :=
  match c with
  | [] => []
  | y :: c' => if has_key k y then c' else y :: remove_key k c'
  end.

(** Modelled from the spec: Collection.remove, which removes the first
    element with a matching key and returns [false] when there is none. *)
Definition remove (x : T) (c : list T) : bool * list T :=
  match getById c (key x) with
  | Some _ => (true, remove_key (key x) c)
  | None => (false, c)
  end.

(** Items are JavaScript objects: what [getById] hands out is the very
    object the collection holds, and a method called on it changes it in
    place.  With values instead of references, the changed object [x] is
    written back over the first item stored under its key, which is the
    one [getById] returned. *)
Fixpoint write_back (x : T) (c : list T) : list T :=
  match c with
  | [] => []
  | y :: c' => if has_key (key x) y then x :: c' else y :: write_back x c'
  end.

Definition count (k : string) (c : list T) : nat :=
  length (filter (has_key k) c).

Fixpoint unique_keys (c : list T) : bool :=
  match c with
  | [] => true
  | x :: c' => negb (existsb (has_key (key x)) c') && unique_keys c'
  end.

End Keyed.

End Collection.

(** ** Entities *)

Module Player.

Record t := mk
  { client : string;
    name : string;
    color : string;
    ready : bool }.

(** Modelled from the spec: the Player class is not among the sources.
    [new Player(client, name, color)]; a player starts out not ready. *)
Definition new (client name color : string) : t :=
  mk client name color false.

(** Modelled from the spec: Player.setColor, an unconditional
    overwrite. *)
Definition setColor (c : string) (p : t) : t :=
  mk (client p) (name p) c (ready p).

(** Modelled from the spec: Player.toggleReady, which sets the flag to
    the value supplied by the server event. *)
Definition toggleReady (r : bool) (p : t) : t :=
  mk (client p) (name p) (color p) r.

End Player.

Module Room.

Record t := mk
  { name : string;
    players : list Player.t }.

(** Modelled from the spec: the Room class is not among the sources.
    [new Room(name)] has no player. *)
Definition new (n : string) : t := mk n (Collection.new).

(** Modelled from the spec: Room.addPlayer delegates to the room's
    collection of players, keyed by client id. *)
Definition addPlayer (p : Player.t) (r : t) : bool * t :=
  let (ok, ps) := Collection.add Player.client p (players r) in
  (ok, mk (name r) ps).

(** Modelled from the spec: Room.removePlayer, the mirror image. *)
Definition removePlayer (p : Player.t) (r : t) : bool * t :=
  let (ok, ps) := Collection.remove Player.client p (players r) in
  (ok, mk (name r) ps).

(** A player object reached through [room.players.getById] and then
    changed in place. *)
Definition with_player (p : Player.t) (r : t) : t :=
  mk (name r) (Collection.write_back Player.client p (players r)).

End Room.

(** ** Payloads of the inbound events *)

Module PlayerData.
Record t := mk { client : string; name : string; color : string }.
End PlayerData.

Module NewRoom.
Record t := mk { name : string; players : list PlayerData.t }.
End NewRoom.

Module CloseRoom.
Record t := mk { room : string }.
End CloseRoom.

Module JoinRoom.
Record t := mk { room : string; player : PlayerData.t }.
End JoinRoom.

Module LeaveRoom.
Record t := mk { room : string; player : string }.
End LeaveRoom.

Module PlayerColor.
Record t := mk { room : string; player : string; color : string }.
End PlayerColor.

Module PlayerReady.
Record t := mk { room : string; player : string; ready : bool }.
End PlayerReady.

Module WarmupRoom.
Record t := mk { room : string }.
End WarmupRoom.

(** ** The two collaborators *)

(** What [this.emit(topic, data)] hands to the subscribers.  The objects
    in [data] are recorded as they are at the moment of the call. *)
Inductive Payload :=
| NoData
| RoomData (room : Room.t)
| RoomPlayerData (room : Room.t) (player : Player.t).

Record Notification := notify
  { topic : string;
    data : Payload }.

(** JavaScript values handed to the socket by the callers of the public
    methods. *)
#[local] Set Warnings "-register-all".
Inductive Value :=
| VUndefined
| VString (s : string)
| VBoolean (b : bool)
| VFunction (id : nat)
| VObject (fields : list (string * Value)).

(** One call of [this.client.io.emit(event, ...args)]. *)
Record Message := message
  { event : string;
    args : list Value }.

(** Identifiers that a function body uses without declaring them are
    looked up in the global scope. *)
Definition Globals := string -> option Value.

Inductive Error :=
| ReferenceError (ident : string).

(** ** The repository and its monad *)

Record RoomRepository := repository
  { synced : bool;
    rooms : list Room.t;
    emitted : list Notification;
    sent : list Message }.

(** [function RoomRepository(SocketClient, PlayerRepository)] *)
Definition RoomRepository_new : RoomRepository :=
  repository false Collection.new [] [].

Inductive Completion (A : Type) :=
| Normal (a : A)
| Throw (e : Error).

Arguments Normal {A} a.
Arguments Throw {A} e.

Definition M (A : Type) := RoomRepository -> Completion A * RoomRepository.

Definition ret {A} (a : A) : M A := fun w => (Normal a, w).

Definition bind {A B} (m : M A) (k : A -> M B) : M B :=
  fun w =>
    match m w with
    | (Normal a, w') => k a w'
    | (Throw e, w') => (Throw e, w')
    end.

Definition throw {A} (e : Error) : M A := fun w => (Throw e, w).

Declare Scope js_scope.
Delimit Scope js_scope with js.
Notation "x <- m ;; k" := (bind m (fun x => k))
  (at level 61, m at next level, right associativity) : js_scope.
Notation "m ;; k" := (bind m (fun _ => k))
  (at level 61, right associativity) : js_scope.
Local Open Scope js_scope.

Definition exec {A} (m : M A) (w : RoomRepository) : RoomRepository :=
  snd (m w).

Definition completion {A} (m : M A) (w : RoomRepository) : Completion A :=
  fst (m w).

Definition get_synced : M bool := fun w => (Normal (synced w), w).

Definition set_synced (b : bool) : M unit :=
  fun w => (Normal tt, repository b (rooms w) (emitted w) (sent w)).

Definition get_rooms : M (list Room.t) := fun w => (Normal (rooms w), w).

Definition set_rooms (rs : list Room.t) : M unit :=
  fun w => (Normal tt, repository (synced w) rs (emitted w) (sent w)).

(** Modelled from the spec: EventEmitter is not among the sources.
    [this.emit(topic, data)] hands the notification to the subscribers,
    who are outside the repository; the call is recorded. *)
Definition emit (topic : string) (data : Payload) : M unit :=
  fun w =>
    (Normal tt,
     repository (synced w) (rooms w) (emitted w ++ [notify topic data]) (sent w)).

(** [this.client.io.emit(event, ...args)] *)
Definition io_emit (event : string) (args : list Value) : M unit :=
  fun w =>
    (Normal tt,
     repository (synced w) (rooms w) (emitted w) (sent w ++ [message event args])).

Definition global (g : Globals) (ident : string) : M Value :=
  match g ident with
  | Some v => ret v
  | None => throw (ReferenceError ident)
  end.

(** ** Public reads *)

(** [RoomRepository.prototype.all] *)
Definition all : M (list Room.t) := get_rooms.

(** [RoomRepository.prototype.get] *)
Definition get (name : string) : M (option Room.t) :=
  rs <- get_rooms ;;
  ret (Collection.getById Room.name rs name).

(** ** Public requests *)

Definition create (name callback : Value) : M unit :=
  io_emit "room:create" [VObject [("name"%string, name)]; callback].

Definition join (room callback : Value) : M unit :=
  io_emit "room:join" [VObject [("room"%string, room)]; callback].

Definition addPlayer (name callback : Value) : M unit :=
  io_emit "room:player:add" [VObject [("name"%string, name)]; callback].

Definition leave (callback : Value) : M unit :=
  io_emit "room:leave" [callback].

Definition setColor (room player color callback : Value) : M unit :=
  io_emit "room:color"
    [VObject [("room"%string, room); ("player"%string, player);
              ("color"%string, color)];
     callback].

Definition setReady (room player callback : Value) : M unit :=
  io_emit "room:ready"
    [VObject [("room"%string, room); ("player"%string, player)]; callback].

(** ** Inbound events *)

Definition new_Player (d : PlayerData.t) : Player.t :=
  Player.new (PlayerData.client d) (PlayerData.name d) (PlayerData.color d).

(** One turn of the loop of [onNewRoom]: the result of [addPlayer] is
    dropped. *)
Definition add_to_room (room : Room.t) (p : Player.t) : Room.t :=
  snd (Room.addPlayer p room).

(** The loop of [onNewRoom]:
    [for (var i = data.players.length - 1; i >= 0; i--)], entered with
    [n = i + 1]. *)
Fixpoint add_players_down (ps : list PlayerData.t) (n : nat) (room : Room.t)
  : Room.t :=
  match n with
  | 0 => room
  | S i =>
      match nth_error ps i with
      | Some d => add_players_down ps i (add_to_room room (new_Player d))
      | None => room
      end
  end.

Definition setSynced : M unit :=
  s <- get_synced ;;
  if negb s then
    set_synced true ;;
    emit "synced" NoData
  else ret tt.

(** The room object that [onNewRoom] builds before it touches the
    repository. *)
Definition new_Room (data : NewRoom.t) : Room.t :=
  add_players_down (NewRoom.players data) (length (NewRoom.players data))
    (Room.new (NewRoom.name data)).

Definition onNewRoom (data : NewRoom.t) : M unit :=
  let room := new_Room data in
  rs <- get_rooms ;;
  (let (added, rs') := Collection.add Room.name room rs in
   set_rooms rs' ;;
   if added then emit "room:new" (RoomData room) else ret tt) ;;
  setSynced.

Definition onCloseRoom (data : CloseRoom.t) : M unit :=
  rs <- get_rooms ;;
  match Collection.getById Room.name rs (CloseRoom.room data) with
  | Some room =>
      let (removed, rs') := Collection.remove Room.name room rs in
      set_rooms rs' ;;
      if removed then emit "room:close" (RoomData room) else ret tt
  | None => ret tt
  end.

Definition onJoinRoom (data : JoinRoom.t) : M unit :=
  rs <- get_rooms ;;
  let player := new_Player (JoinRoom.player data) in
  match Collection.getById Room.name rs (JoinRoom.room data) with
  | Some room =>
      let (added, room') := Room.addPlayer player room in
      set_rooms (Collection.write_back Room.name room' rs) ;;
      if added then
        emit "room:join" (RoomPlayerData room' player) ;;
        emit ("room:join:" ++ Room.name room') (RoomPlayerData room' player)
      else ret tt
  | None => ret tt
  end.

Definition onLeaveRoom (data : LeaveRoom.t) : M unit :=
  rs <- get_rooms ;;
  match Collection.getById Room.name rs (LeaveRoom.room data) with
  | Some room =>
      match Collection.getById Player.client (Room.players room)
              (LeaveRoom.player data) with
      | Some player =>
          let (removed, room') := Room.removePlayer player room in
          set_rooms (Collection.write_back Room.name room' rs) ;;
          if removed then
            emit "room:leave" (RoomPlayerData room' player) ;;
            emit ("room:leave:" ++ Room.name room') (RoomPlayerData room' player)
          else ret tt
      | None => ret tt
      end
  | None => ret tt
  end.

Definition onPlayerColor (data : PlayerColor.t) : M unit :=
  rs <- get_rooms ;;
  match Collection.getById Room.name rs (PlayerColor.room data) with
  | Some room =>
      match Collection.getById Player.client (Room.players room)
              (PlayerColor.player data) with
      | Some player =>
          let player' := Player.setColor (PlayerColor.color data) player in
          let room' := Room.with_player player' room in
          set_rooms (Collection.write_back Room.name room' rs) ;;
          emit ("room:player:color:" ++ Room.name room')
            (RoomPlayerData room' player')
      | None => ret tt
      end
  | None => ret tt
  end.

Definition onPlayerReady (data : PlayerReady.t) : M unit :=
  rs <- get_rooms ;;
  match Collection.getById Room.name rs (PlayerReady.room data) with
  | Some room =>
      match Collection.getById Player.client (Room.players room)
              (PlayerReady.player data) with
      | Some player =>
          let player' := Player.toggleReady (PlayerReady.ready data) player in
          let room' := Room.with_player player' room in
          set_rooms (Collection.write_back Room.name room' rs) ;;
          emit ("room:player:ready:" ++ Room.name room')
            (RoomPlayerData room' player')
      | None => ret tt
      end
  | None => ret tt
  end.

Definition onWarmupRoom (data : WarmupRoom.t) : M unit :=
  rs <- get_rooms ;;
  match Collection.getById Room.name rs (WarmupRoom.room data) with
  | Some room =>
      emit "room:start" (RoomData room) ;;
      emit ("room:start:" ++ Room.name room) (RoomData room)
  | None => ret tt
  end.

(** [refresh] names [room] and [callback] without declaring them: both
    are resolved in the global scope when the arguments of the call are
    evaluated, after the two assignments. *)
Definition refresh (g : Globals) : M unit :=
  set_synced false ;;
  set_rooms Collection.new ;;
  room <- global g "room" ;;
  callback <- global g "callback" ;;
  io_emit "room:join" [VObject [("room"%string, room)]; callback].

(** ** Everything that can happen to a repository *)

Inductive Action :=
| NewRoomEvent (data : NewRoom.t)
| CloseRoomEvent (data : CloseRoom.t)
| JoinRoomEvent (data : JoinRoom.t)
| LeaveRoomEvent (data : LeaveRoom.t)
| PlayerColorEvent (data : PlayerColor.t)
| PlayerReadyEvent (data : PlayerReady.t)
| WarmupRoomEvent (data : WarmupRoom.t)
| Create (name callback : Value)
| Join (room callback : Value)
| AddPlayer (name callback : Value)
| Leave (callback : Value)
| SetColor (room player color callback : Value)
| SetReady (room player callback : Value)
| Refresh (g : Globals).

Definition perform (a : Action) : M unit :=
  match a with
  | NewRoomEvent data => onNewRoom data
  | CloseRoomEvent data => onCloseRoom data
  | JoinRoomEvent data => onJoinRoom data
  | LeaveRoomEvent data => onLeaveRoom data
  | PlayerColorEvent data => onPlayerColor data
  | PlayerReadyEvent data => onPlayerReady data
  | WarmupRoomEvent data => onWarmupRoom data
  | Create name callback => create name callback
  | Join room callback => join room callback
  | AddPlayer name callback => addPlayer name callback
  | Leave callback => leave callback
  | SetColor room player color callback => setColor room player color callback
  | SetReady room player callback => setReady room player callback
  | Refresh g => refresh g
  end.

(** Actions are delivered one at a time; an exception thrown by one of
    them does not undo what it had done before. *)
Definition run (acts : list Action) (w : RoomRepository) : RoomRepository :=
  fold_left (fun w a => exec (perform a) w) acts w.

Inductive reachable : RoomRepository -> Prop :=
| reachable_new : reachable RoomRepository_new
| reachable_step w a : reachable w -> reachable (exec (perform a) w).

Definition is_refresh (a : Action) : bool :=
  match a with
  | Refresh _ => true
  | _ => false
  end.

(** The events that the socket delivers. *)
Definition is_inbound (a : Action) : bool :=
  match a with
  | NewRoomEvent _ | CloseRoomEvent _ | JoinRoomEvent _ | LeaveRoomEvent _
  | PlayerColorEvent _ | PlayerReadyEvent _ | WarmupRoomEvent _ => true
  | _ => false
  end.

Definition is_new_room (a : Action) : bool :=
  match a with
  | NewRoomEvent _ => true
  | _ => false
  end.

(** The room that an inbound event names. *)
Definition target (a : Action) : option string :=
  match a with
  | NewRoomEvent data => Some (NewRoom.name data)
  | CloseRoomEvent data => Some (CloseRoom.room data)
  | JoinRoomEvent data => Some (JoinRoom.room data)
  | LeaveRoomEvent data => Some (LeaveRoom.room data)
  | PlayerColorEvent data => Some (PlayerColor.room data)
  | PlayerReadyEvent data => Some (PlayerReady.room data)
  | WarmupRoomEvent data => Some (WarmupRoom.room data)
  | _ => None
  end.

(** ** Observations used in the statements *)

Definition room_wf (r : Room.t) : bool :=
  Collection.unique_keys Player.client (Room.players r).

(** The invariant of the data model: room names are unique, and so are
    the client ids inside each room. *)
Definition wf (w : RoomRepository) : bool :=
  Collection.unique_keys Room.name (rooms w) && forallb room_wf (rooms w).

Definition count_topic (t : string) (ns : list Notification) : nat :=
  length (filter (fun n => String.eqb (topic n) t) ns).

(** The "room:new" and "room:close" notifications account for the rooms
    held. *)
Definition tracked (w : RoomRepository) : Prop :=
  count_topic "room:new" (emitted w) =
  length (rooms w) + count_topic "room:close" (emitted w).

(** The call [m] completes normally, hands the one message [event] with
    [args] to the socket and changes nothing else. *)
Definition only_sends (w : RoomRepository) (m : M unit) (event : string)
  (args : list Value) : Prop :=
  completion m w = Normal tt /\
  exec m w =
  repository (synced w) (rooms w) (emitted w) (sent w ++ [message event args]).

(** The ready flag of the player [client] of the room [room], when both
    exist. *)
Definition ready_flag (w : RoomRepository) (room client : string)
  : option bool :=
  match Collection.getById Room.name (rooms w) room with
  | Some r =>
      match Collection.getById Player.client (Room.players r) client with
      | Some p => Some (Player.ready p)
      | None => None
      end
  | None => None
  end.

(** * Properties *)

(** ** The keyed collection *)

Module CollectionFacts.

Import Collection.

Section Keyed.

Context {T : Type}.
Variable key : T -> string.

Lemma getById_key (c : list T) k x :
  getById key c k = Some x -> key x = k.
Proof.
  unfold getById. intros H. apply find_some in H.
  destruct H as [_ H]. now apply String.eqb_eq in H.
Qed.

Lemma getById_In (c : list T) k x :
  getById key c k = Some x -> In x c.
Proof.
  unfold getById. intros H. now apply find_some in H.
Qed.

Lemma getById_None (c : list T) k :
  getById key c k = None <-> count key k c = 0.
Proof.
  unfold getById, count.
  induction c as [|y c IH]; simpl; [tauto|].
  destruct (has_key key k y); simpl; [split; discriminate | exact IH].
Qed.

Lemma getById_Some_count (c : list T) k x :
  getById key c k = Some x -> 1 <= count key k c.
Proof.
  intros H. destruct (count key k c) eqn:E; [|lia].
  apply getById_None in E. congruence.
Qed.

Lemma count_app (c d : list T) k :
  count key k (c ++ d) = count key k c + count key k d.
Proof.
  unfold count. now rewrite filter_app, length_app.
Qed.

Lemma existsb_count (c : list T) k :
  existsb (has_key key k) c = false <-> count key k c = 0.
Proof.
  unfold count.
  induction c as [|y c IH]; simpl; [tauto|].
  destruct (has_key key k y); simpl; [split; discriminate | exact IH].
Qed.

Lemma unique_keys_count (c : list T) :
  unique_keys key c = true <-> forall k, count key k c <= 1.
Proof.
  induction c as [|y c IH]; simpl.
  - split; [intros _ k; unfold count; simpl; lia | reflexivity].
  - rewrite andb_true_iff, negb_true_iff, existsb_count, IH.
    unfold count in *. simpl. split.
    + intros [H0 H] k. unfold has_key at 1.
      destruct (String.eqb_spec (key y) k) as [<-|_]; simpl.
      * rewrite H0. lia.
      * apply H.
    + intros H. split.
      * specialize (H (key y)). unfold has_key at 1 in H.
        rewrite String.eqb_refl in H. simpl in H. lia.
      * intros k. specialize (H k).
        destruct (has_key key k y); simpl in H; lia.
Qed.

Lemma unique_getById_count (c : list T) k x :
  unique_keys key c = true ->
  getById key c k = Some x -> count key k c = 1.
Proof.
  intros U H. apply getById_Some_count in H.
  pose proof (proj1 (unique_keys_count c) U k). lia.
Qed.

Lemma add_absent (c : list T) x :
  getById key c (key x) = None -> add key x c = (true, c ++ [x]).
Proof. unfold add. now intros ->. Qed.

Lemma add_present (c : list T) x y :
  getById key c (key x) = Some y -> add key x c = (false, c).
Proof. unfold add. now intros ->. Qed.

Lemma count_singleton x k :
  count key k [x] = if String.eqb (key x) k then 1 else 0.
Proof.
  unfold count, has_key. simpl. now destruct (String.eqb (key x) k).
Qed.

Lemma add_unique (c : list T) x :
  unique_keys key c = true -> unique_keys key (snd (add key x c)) = true.
Proof.
  intros U. unfold add.
  destruct (getById key c (key x)) eqn:E; simpl; [exact U|].
  apply unique_keys_count. intros k.
  rewrite count_app, count_singleton.
  destruct (String.eqb_spec (key x) k) as [<-|_].
  - apply getById_None in E. lia.
  - pose proof (proj1 (unique_keys_count c) U k). lia.
Qed.

Lemma count_remove_key_le (c : list T) k k' :
  count key k (remove_key key k' c) <= count key k c.
Proof.
  unfold count.
  induction c as [|y c IH]; simpl; [lia|].
  destruct (has_key key k' y); simpl.
  - destruct (has_key key k y); simpl; lia.
  - destruct (has_key key k y); simpl; lia.
Qed.

Lemma remove_unique (c : list T) x :
  unique_keys key c = true -> unique_keys key (snd (remove key x c)) = true.
Proof.
  intros U. unfold remove.
  destruct (getById key c (key x)); simpl; [|exact U].
  apply unique_keys_count. intros k.
  pose proof (count_remove_key_le c k (key x)).
  pose proof (proj1 (unique_keys_count c) U k). lia.
Qed.

Lemma count_remove_key (c : list T) k :
  unique_keys key c = true -> count key k (remove_key key k c) = 0.
Proof.
  intros U.
  pose proof (proj1 (unique_keys_count c) U k) as H. revert H. clear U.
  unfold count.
  induction c as [|y c IH]; simpl; [reflexivity|].
  destruct (has_key key k y) eqn:E; simpl.
  - lia.
  - rewrite E. exact IH.
Qed.

Lemma write_back_keys (c : list T) x :
  map key (write_back key x c) = map key c.
Proof.
  induction c as [|y c IH]; simpl; [reflexivity|].
  unfold has_key at 1.
  destruct (String.eqb_spec (key y) (key x)) as [E|_]; simpl.
  - now rewrite E.
  - now rewrite IH.
Qed.

Lemma count_keys (c d : list T) k :
  map key c = map key d -> count key k c = count key k d.
Proof.
  unfold count. revert d.
  induction c as [|y c IH]; intros [|z d]; simpl; try discriminate.
  - reflexivity.
  - intros H. injection H as Hk Ht. specialize (IH d Ht).
    assert (E : has_key key k y = has_key key k z)
      by (unfold has_key; now rewrite Hk).
    rewrite E. destruct (has_key key k z); simpl; congruence.
Qed.

Lemma unique_keys_ext (c d : list T) :
  map key c = map key d -> unique_keys key c = unique_keys key d.
Proof.
  intros H. apply eq_true_iff_eq.
  rewrite !unique_keys_count.
  split; intros U k.
  - rewrite <- (count_keys c d k H). apply U.
  - rewrite (count_keys c d k H). apply U.
Qed.

Lemma write_back_same (c : list T) x :
  getById key c (key x) = Some x -> write_back key x c = c.
Proof.
  unfold getById.
  induction c as [|y c IH]; simpl; [reflexivity|].
  destruct (has_key key (key x) y).
  - now intros [= ->].
  - intros H. now rewrite IH.
Qed.

Lemma getById_write_back (c : list T) x y :
  getById key c (key x) = Some y ->
  getById key (write_back key x c) (key x) = Some x.
Proof.
  unfold getById.
  induction c as [|z c IH]; simpl; [discriminate|].
  destruct (has_key key (key x) z) eqn:E; simpl.
  - intros _. unfold has_key. now rewrite String.eqb_refl.
  - rewrite E. exact IH.
Qed.

Lemma getById_write_back_other (c : list T) x k :
  key x <> k ->
  getById key (write_back key x c) k = getById key c k.
Proof.
  intros N. unfold getById.
  induction c as [|z c IH]; simpl; [reflexivity|].
  destruct (has_key key (key x) z) eqn:E; simpl.
  - unfold has_key in *. apply String.eqb_eq in E.
    apply String.eqb_neq in N. rewrite N.
    rewrite E. now rewrite N.
  - now rewrite IH.
Qed.

Lemma write_back_absent (c : list T) x :
  getById key c (key x) = None -> write_back key x c = c.
Proof.
  unfold getById.
  induction c as [|y c IH]; simpl; [reflexivity|].
  destruct (has_key key (key x) y); [discriminate|].
  intros H. now rewrite IH.
Qed.

End Keyed.

End CollectionFacts.

(** ** Running the handlers *)

Ltac js_unfold :=
  unfold exec, completion, setSynced, bind, ret, throw, get_synced,
    set_synced, get_rooms, set_rooms, emit, io_emit, global.

Lemma repository_eta w :
  repository (synced w) (rooms w) (emitted w) (sent w) = w.
Proof. now destruct w. Qed.

Section WriteBack.

Context {T : Type}.
Variable key : T -> string.

Lemma forallb_write_back (f : T -> bool) x c :
  forallb f c = true -> f x = true ->
  forallb f (Collection.write_back key x c) = true.
Proof.
  intros Hc Hx. induction c as [|y c IH]; simpl in *; [reflexivity|].
  apply andb_true_iff in Hc. destruct Hc as [Hy Hc].
  destruct (Collection.has_key key (key x) y); simpl.
  - now rewrite Hx, Hc.
  - now rewrite Hy, IH.
Qed.

Lemma forallb_remove_key (f : T -> bool) k c :
  forallb f c = true ->
  forallb f (Collection.remove_key key k c) = true.
Proof.
  intros Hc. induction c as [|y c IH]; simpl in *; [reflexivity|].
  apply andb_true_iff in Hc. destruct Hc as [Hy Hc].
  destruct (Collection.has_key key k y); simpl.
  - exact Hc.
  - now rewrite Hy, IH.
Qed.

Lemma forallb_getById (f : T -> bool) k c x :
  forallb f c = true -> Collection.getById key c k = Some x -> f x = true.
Proof.
  intros Hc Hx. apply CollectionFacts.getById_In in Hx.
  rewrite forallb_forall in Hc. now apply Hc.
Qed.

End WriteBack.

Lemma addPlayer_name p r : Room.name (snd (Room.addPlayer p r)) = Room.name r.
Proof.
  unfold Room.addPlayer.
  now destruct (Collection.add Player.client p (Room.players r)).
Qed.

Lemma addPlayer_players p r :
  Room.players (snd (Room.addPlayer p r)) =
  snd (Collection.add Player.client p (Room.players r)).
Proof.
  unfold Room.addPlayer.
  now destruct (Collection.add Player.client p (Room.players r)).
Qed.

Lemma addPlayer_wf p r :
  room_wf r = true -> room_wf (snd (Room.addPlayer p r)) = true.
Proof.
  unfold room_wf. rewrite addPlayer_players.
  apply CollectionFacts.add_unique.
Qed.

Lemma add_players_down_name ps n r :
  Room.name (add_players_down ps n r) = Room.name r.
Proof.
  revert r. induction n as [|i IH]; intros r; simpl; [reflexivity|].
  destruct (nth_error ps i); [|reflexivity].
  rewrite IH. apply addPlayer_name.
Qed.

Lemma add_players_down_wf ps n r :
  room_wf r = true -> room_wf (add_players_down ps n r) = true.
Proof.
  revert r. induction n as [|i IH]; intros r H; simpl; [exact H|].
  destruct (nth_error ps i); [|exact H].
  apply IH. now apply addPlayer_wf.
Qed.

Lemma new_Room_name d : Room.name (new_Room d) = NewRoom.name d.
Proof. unfold new_Room. now rewrite add_players_down_name. Qed.

Lemma new_Room_wf d : room_wf (new_Room d) = true.
Proof. unfold new_Room. now apply add_players_down_wf. Qed.

(** What [onNewRoom] does, in one equation. *)
Lemma onNewRoom_exec d w :
  exec (onNewRoom d) w =
  let added :=
    match Collection.getById Room.name (rooms w) (NewRoom.name d) with
    | Some _ => false
    | None => true
    end in
  repository true
    (if added then rooms w ++ [new_Room d] else rooms w)
    (emitted w
       ++ (if added then [notify "room:new" (RoomData (new_Room d))] else [])
       ++ (if synced w then [] else [notify "synced" NoData]))
    (sent w).
Proof.
  unfold onNewRoom, Collection.add. js_unfold. simpl.
  rewrite new_Room_name.
  destruct (Collection.getById Room.name (rooms w) (NewRoom.name d)),
    w as [[] rs em se]; simpl;
    rewrite ?app_nil_r, <- ?app_assoc; reflexivity.
Qed.

Lemma onCloseRoom_exec d w :
  exec (onCloseRoom d) w =
  match Collection.getById Room.name (rooms w) (CloseRoom.room d) with
  | Some room =>
      repository (synced w)
        (Collection.remove_key Room.name (CloseRoom.room d) (rooms w))
        (emitted w ++ [notify "room:close" (RoomData room)]) (sent w)
  | None => w
  end.
Proof.
  unfold onCloseRoom, Collection.remove. js_unfold. simpl.
  destruct (Collection.getById Room.name (rooms w) (CloseRoom.room d))
    as [room|] eqn:E; [|reflexivity].
  rewrite (CollectionFacts.getById_key _ _ _ _ E), E. reflexivity.
Qed.

Lemma onJoinRoom_absent d w :
  Collection.getById Room.name (rooms w) (JoinRoom.room d) = None ->
  exec (onJoinRoom d) w = w.
Proof.
  intros E. unfold onJoinRoom. js_unfold. simpl. now rewrite E.
Qed.

Lemma onJoinRoom_duplicate d w r q :
  Collection.getById Room.name (rooms w) (JoinRoom.room d) = Some r ->
  Collection.getById Player.client (Room.players r)
    (PlayerData.client (JoinRoom.player d)) = Some q ->
  exec (onJoinRoom d) w = w.
Proof.
  intros E Q. unfold onJoinRoom, Room.addPlayer, Collection.add.
  js_unfold. simpl. rewrite E. simpl. rewrite Q. simpl.
  replace (Room.mk (Room.name r) (Room.players r)) with r by now destruct r.
  rewrite CollectionFacts.write_back_same.
  - apply repository_eta.
  - now rewrite (CollectionFacts.getById_key _ _ _ _ E).
Qed.

Lemma onJoinRoom_added d w r :
  Collection.getById Room.name (rooms w) (JoinRoom.room d) = Some r ->
  Collection.getById Player.client (Room.players r)
    (PlayerData.client (JoinRoom.player d)) = None ->
  let p := new_Player (JoinRoom.player d) in
  let r' := Room.mk (Room.name r) (Room.players r ++ [p]) in
  exec (onJoinRoom d) w =
  repository (synced w) (Collection.write_back Room.name r' (rooms w))
    (emitted w ++ [notify "room:join" (RoomPlayerData r' p);
                   notify ("room:join:" ++ JoinRoom.room d)
                     (RoomPlayerData r' p)])
    (sent w).
Proof.
  intros E Q. unfold onJoinRoom, Room.addPlayer, Collection.add.
  js_unfold. simpl. rewrite E. simpl. rewrite Q. simpl.
  rewrite (CollectionFacts.getById_key _ _ _ _ E), <- app_assoc.
  reflexivity.
Qed.

Lemma onLeaveRoom_exec d w :
  exec (onLeaveRoom d) w =
  match Collection.getById Room.name (rooms w) (LeaveRoom.room d) with
  | Some r =>
      match Collection.getById Player.client (Room.players r)
              (LeaveRoom.player d) with
      | Some p =>
          let r' :=
            Room.mk (Room.name r)
              (Collection.remove_key Player.client (LeaveRoom.player d)
                 (Room.players r)) in
          repository (synced w) (Collection.write_back Room.name r' (rooms w))
            (emitted w ++ [notify "room:leave" (RoomPlayerData r' p);
                           notify ("room:leave:" ++ LeaveRoom.room d)
                             (RoomPlayerData r' p)])
            (sent w)
      | None => w
      end
  | None => w
  end.
Proof.
  unfold onLeaveRoom, Room.removePlayer, Collection.remove. js_unfold. simpl.
  destruct (Collection.getById Room.name (rooms w) (LeaveRoom.room d))
    as [r|] eqn:E; [|reflexivity].
  destruct (Collection.getById Player.client (Room.players r)
              (LeaveRoom.player d)) as [p|] eqn:Q; [|reflexivity].
  rewrite (CollectionFacts.getById_key _ _ _ _ Q), Q. simpl.
  rewrite (CollectionFacts.getById_key _ _ _ _ E), <- app_assoc.
  reflexivity.
Qed.

Lemma onPlayerColor_exec d w :
  exec (onPlayerColor d) w =
  match Collection.getById Room.name (rooms w) (PlayerColor.room d) with
  | Some r =>
      match Collection.getById Player.client (Room.players r)
              (PlayerColor.player d) with
      | Some p =>
          let p' := Player.setColor (PlayerColor.color d) p in
          let r' := Room.with_player p' r in
          repository (synced w) (Collection.write_back Room.name r' (rooms w))
            (emitted w ++ [notify ("room:player:color:" ++ PlayerColor.room d)
                             (RoomPlayerData r' p')])
            (sent w)
      | None => w
      end
  | None => w
  end.
Proof.
  unfold onPlayerColor. js_unfold. simpl.
  destruct (Collection.getById Room.name (rooms w) (PlayerColor.room d))
    as [r|] eqn:E; [|reflexivity].
  destruct (Collection.getById Player.client (Room.players r)
              (PlayerColor.player d)) as [p|] eqn:Q; [|reflexivity].
  simpl. now rewrite (CollectionFacts.getById_key _ _ _ _ E).
Qed.

Lemma onPlayerReady_exec d w :
  exec (onPlayerReady d) w =
  match Collection.getById Room.name (rooms w) (PlayerReady.room d) with
  | Some r =>
      match Collection.getById Player.client (Room.players r)
              (PlayerReady.player d) with
      | Some p =>
          let p' := Player.toggleReady (PlayerReady.ready d) p in
          let r' := Room.with_player p' r in
          repository (synced w) (Collection.write_back Room.name r' (rooms w))
            (emitted w ++ [notify ("room:player:ready:" ++ PlayerReady.room d)
                             (RoomPlayerData r' p')])
            (sent w)
      | None => w
      end
  | None => w
  end.
Proof.
  unfold onPlayerReady. js_unfold. simpl.
  destruct (Collection.getById Room.name (rooms w) (PlayerReady.room d))
    as [r|] eqn:E; [|reflexivity].
  destruct (Collection.getById Player.client (Room.players r)
              (PlayerReady.player d)) as [p|] eqn:Q; [|reflexivity].
  simpl. now rewrite (CollectionFacts.getById_key _ _ _ _ E).
Qed.

Lemma onWarmupRoom_exec d w :
  exec (onWarmupRoom d) w =
  match Collection.getById Room.name (rooms w) (WarmupRoom.room d) with
  | Some r =>
      repository (synced w) (rooms w)
        (emitted w ++ [notify "room:start" (RoomData r);
                       notify ("room:start:" ++ WarmupRoom.room d) (RoomData r)])
        (sent w)
  | None => w
  end.
Proof.
  unfold onWarmupRoom. js_unfold. simpl.
  destruct (Collection.getById Room.name (rooms w) (WarmupRoom.room d))
    as [r|] eqn:E; [|reflexivity].
  simpl. now rewrite (CollectionFacts.getById_key _ _ _ _ E), <- app_assoc.
Qed.

Lemma refresh_exec g w :
  synced (exec (refresh g) w) = false /\
  rooms (exec (refresh g) w) = [] /\
  emitted (exec (refresh g) w) = emitted w.
Proof.
  unfold refresh. js_unfold. simpl.
  destruct (g "room"%string); simpl; [|now repeat split].
  destruct (g "callback"%string); simpl; now repeat split.
Qed.

(** ** The invariant *)

Lemma wf_intro w :
  Collection.unique_keys Room.name (rooms w) = true ->
  forallb room_wf (rooms w) = true ->
  wf w = true.
Proof. unfold wf. now intros -> ->. Qed.

Lemma wf_elim w :
  wf w = true ->
  Collection.unique_keys Room.name (rooms w) = true /\
  forallb room_wf (rooms w) = true.
Proof. unfold wf. apply andb_true_iff. Qed.

Lemma wf_write_back w r r' k :
  wf w = true ->
  Collection.getById Room.name (rooms w) k = Some r ->
  Room.name r' = Room.name r ->
  room_wf r' = true ->
  Collection.unique_keys Room.name
    (Collection.write_back Room.name r' (rooms w)) = true /\
  forallb room_wf (Collection.write_back Room.name r' (rooms w)) = true.
Proof.
  intros W E N R. apply wf_elim in W. destruct W as [U F]. split.
  - rewrite (CollectionFacts.unique_keys_ext Room.name _ (rooms w)); [exact U|].
    apply CollectionFacts.write_back_keys.
  - now apply forallb_write_back.
Qed.

Lemma with_player_wf p r : room_wf r = true -> room_wf (Room.with_player p r) = true.
Proof.
  unfold room_wf, Room.with_player. simpl. intros U.
  rewrite (CollectionFacts.unique_keys_ext Player.client _ (Room.players r));
    [exact U|].
  apply CollectionFacts.write_back_keys.
Qed.

Lemma perform_wf a w : wf w = true -> wf (exec (perform a) w) = true.
Proof.
  intros W. pose proof (wf_elim w W) as [U F].
  destruct a as [d|d|d|d|d|d|d| | | | | | |g]; simpl;
    try (apply wf_intro; exact U || exact F).
  - (* onNewRoom *)
    rewrite onNewRoom_exec. simpl.
    destruct (Collection.getById Room.name (rooms w) (NewRoom.name d)) eqn:E;
      apply wf_intro; simpl; trivial.
    + pose proof (CollectionFacts.add_unique Room.name (rooms w) (new_Room d) U)
        as A.
      unfold Collection.add in A. rewrite new_Room_name, E in A. exact A.
    + rewrite forallb_app, F. simpl. now rewrite new_Room_wf.
  - (* onCloseRoom *)
    rewrite onCloseRoom_exec.
    destruct (Collection.getById Room.name (rooms w) (CloseRoom.room d))
      as [r|] eqn:E; [|exact W].
    apply wf_intro; simpl.
    + pose proof (CollectionFacts.remove_unique Room.name (rooms w) r U) as A.
      unfold Collection.remove in A.
      rewrite (CollectionFacts.getById_key _ _ _ _ E), E in A. exact A.
    + now apply forallb_remove_key.
  - (* onJoinRoom *)
    destruct (Collection.getById Room.name (rooms w) (JoinRoom.room d))
      as [r|] eqn:E; [|now rewrite onJoinRoom_absent].
    destruct (Collection.getById Player.client (Room.players r)
                (PlayerData.client (JoinRoom.player d))) as [q|] eqn:Q.
    + now rewrite (onJoinRoom_duplicate d w r q).
    + rewrite (onJoinRoom_added d w r E Q).
      apply wf_intro; simpl;
        eapply (wf_write_back w r _ _ W E); trivial.
      all: pose proof (addPlayer_wf (new_Player (JoinRoom.player d)) r
                         (forallb_getById _ _ _ _ _ F E)) as A;
        unfold Room.addPlayer, Collection.add in A; simpl in A;
        rewrite Q in A; exact A.
  - (* onLeaveRoom *)
    rewrite onLeaveRoom_exec.
    destruct (Collection.getById Room.name (rooms w) (LeaveRoom.room d))
      as [r|] eqn:E; [|exact W].
    destruct (Collection.getById Player.client (Room.players r)
                (LeaveRoom.player d)) as [p|] eqn:Q; [|exact W].
    assert (R : room_wf
                  (Room.mk (Room.name r)
                     (Collection.remove_key Player.client (LeaveRoom.player d)
                        (Room.players r))) = true).
    { pose proof (CollectionFacts.remove_unique Player.client (Room.players r) p
                    (forallb_getById _ _ _ _ _ F E)) as A.
      unfold Collection.remove in A.
      rewrite (CollectionFacts.getById_key _ _ _ _ Q), Q in A. exact A. }
    apply wf_intro; simpl; eapply (wf_write_back w r _ _ W E); trivial.
  - (* onPlayerColor *)
    rewrite onPlayerColor_exec.
    destruct (Collection.getById Room.name (rooms w) (PlayerColor.room d))
      as [r|] eqn:E; [|exact W].
    destruct (Collection.getById Player.client (Room.players r)
                (PlayerColor.player d)) as [p|] eqn:Q; [|exact W].
    apply wf_intro; simpl; eapply (wf_write_back w r _ _ W E); trivial;
      apply with_player_wf, (forallb_getById _ _ _ _ _ F E).
  - (* onPlayerReady *)
    rewrite onPlayerReady_exec.
    destruct (Collection.getById Room.name (rooms w) (PlayerReady.room d))
      as [r|] eqn:E; [|exact W].
    destruct (Collection.getById Player.client (Room.players r)
                (PlayerReady.player d)) as [p|] eqn:Q; [|exact W].
    apply wf_intro; simpl; eapply (wf_write_back w r _ _ W E); trivial;
      apply with_player_wf, (forallb_getById _ _ _ _ _ F E).
  - (* onWarmupRoom *)
    rewrite onWarmupRoom_exec.
    destruct (Collection.getById Room.name (rooms w) (WarmupRoom.room d));
      [|exact W].
    apply wf_intro; assumption.
  - (* refresh *)
    destruct (refresh_exec g w) as (_ & R & _).
    apply wf_intro; now rewrite R.
Qed.

(** Every repository that the constructor and a sequence of calls can
    produce satisfies the invariant of the data model. *)
Lemma reachable_wf w : reachable w -> wf w = true.
Proof.
  induction 1 as [|w a _ IH]; [reflexivity|].
  now apply perform_wf.
Qed.

(** ** Lookups after an insertion *)

Section Lookup.

Context {T : Type}.
Variable key : T -> string.

Lemma getById_app (c d : list T) k :
  Collection.getById key (c ++ d) k =
  match Collection.getById key c k with
  | Some x => Some x
  | None => Collection.getById key d k
  end.
Proof.
  unfold Collection.getById.
  induction c as [|y c IH]; simpl; [reflexivity|].
  now destruct (Collection.has_key key k y).
Qed.

Lemma getById_last (c : list T) x :
  exists y, Collection.getById key (c ++ [x]) (key x) = Some y.
Proof.
  rewrite getById_app.
  destruct (Collection.getById key c (key x)) as [y|]; [now exists y|].
  exists x. unfold Collection.getById, Collection.has_key. simpl.
  now rewrite String.eqb_refl.
Qed.

End Lookup.

Lemma count_topic_app t ns ms :
  count_topic t (ns ++ ms) = count_topic t ns + count_topic t ms.
Proof. unfold count_topic. now rewrite filter_app, length_app. Qed.

Lemma onNewRoom_present d w r :
  Collection.getById Room.name (rooms w) (NewRoom.name d) = Some r ->
  synced w = true ->
  exec (onNewRoom d) w = w.
Proof.
  intros E S. rewrite onNewRoom_exec, E, S. simpl.
  rewrite app_nil_r, <- S. apply repository_eta.
Qed.

Lemma onNewRoom_synced d w : synced (exec (onNewRoom d) w) = true.
Proof. now rewrite onNewRoom_exec. Qed.

Lemma onNewRoom_lookup d w :
  exists r,
    Collection.getById Room.name (rooms (exec (onNewRoom d) w)) (NewRoom.name d)
    = Some r.
Proof.
  rewrite onNewRoom_exec. simpl.
  destruct (Collection.getById Room.name (rooms w) (NewRoom.name d))
    as [r|] eqn:E.
  - now exists r.
  - rewrite <- (new_Room_name d). apply getById_last.
Qed.

(** ** Duplicate deliveries *)

(** C1. Two new-room events with the same room name: the second one changes
    nothing (the collection of rooms is the one the first event left, with
    exactly one room under that name, and nothing more is emitted); and a
    new-room event emits "room:new" exactly when it added the room, that
    is, when no room of that name was there. *)
Theorem onNewRoom_same_name_twice w d1 d2 :
  wf w = true ->
  NewRoom.name d1 = NewRoom.name d2 ->
  let w1 := exec (onNewRoom d1) w in
  let w2 := exec (onNewRoom d2) w1 in
  rooms w2 = rooms w1 /\
  Collection.count Room.name (NewRoom.name d1) (rooms w2) = 1 /\
  emitted w2 = emitted w1 /\
  match Collection.getById Room.name (rooms w) (NewRoom.name d1) with
  | None =>
      rooms w1 = rooms w ++ [new_Room d1] /\
      count_topic "room:new" (emitted w1) =
      S (count_topic "room:new" (emitted w))
  | Some _ =>
      rooms w1 = rooms w /\
      count_topic "room:new" (emitted w1) = count_topic "room:new" (emitted w)
  end.
Proof.
  intros W N w1 w2.
  destruct (onNewRoom_lookup d1 w) as [r E]. fold w1 in E.
  assert (E2 : w2 = w1).
  { unfold w2. apply (onNewRoom_present d2 w1 r).
    - now rewrite <- N.
    - apply onNewRoom_synced. }
  rewrite E2. repeat split.
  - apply (CollectionFacts.unique_getById_count Room.name _ _ r); [|exact E].
    apply (wf_elim w1). apply (perform_wf (NewRoomEvent d1)), W.
  - unfold w1. rewrite onNewRoom_exec. simpl.
    destruct (Collection.getById Room.name (rooms w) (NewRoom.name d1));
      (split; [reflexivity|]);
      rewrite !count_topic_app;
      set (n := count_topic "room:new" (emitted w));
      destruct (synced w); unfold count_topic; simpl; lia.
Qed.

Lemma onNewRoom_same_name_twice_witness :
  let d1 := NewRoom.mk "lobby1" [PlayerData.mk "c1" "Alice" "red"] in
  let d2 := NewRoom.mk "lobby1" [] in
  let w1 := exec (onNewRoom d1) RoomRepository_new in
  let w2 := exec (onNewRoom d2) w1 in
  rooms w2 = rooms w1 /\
  Collection.count Room.name "lobby1" (rooms w2) = 1 /\
  emitted w2 = emitted w1 /\
  rooms w1 = [new_Room d1] /\
  count_topic "room:new" (emitted w1) = 1.
Proof.
  pose proof (onNewRoom_same_name_twice RoomRepository_new
                (NewRoom.mk "lobby1" [PlayerData.mk "c1" "Alice" "red"])
                (NewRoom.mk "lobby1" []) eq_refl eq_refl) as H.
  exact H.
Defined.

(** What a join-room event does to an existing room, in terms of the
    player object that the handler builds. *)
Lemma onJoinRoom_new_Player w d r :
  wf w = true ->
  Collection.getById Room.name (rooms w) (JoinRoom.room d) = Some r ->
  let p := new_Player (JoinRoom.player d) in
  let w1 := exec (onJoinRoom d) w in
  match Collection.getById Player.client (Room.players r) (Player.client p) with
  | None =>
      let r' := Room.mk (Room.name r) (Room.players r ++ [p]) in
      rooms w1 = Collection.write_back Room.name r' (rooms w) /\
      Collection.getById Room.name (rooms w1) (JoinRoom.room d) = Some r' /\
      emitted w1 =
      emitted w ++ [notify "room:join" (RoomPlayerData r' p);
                    notify ("room:join:" ++ JoinRoom.room d)
                      (RoomPlayerData r' p)]
  | Some _ => w1 = w
  end /\
  exec (onJoinRoom d) w1 = w1 /\
  exists r1,
    Collection.getById Room.name (rooms w1) (JoinRoom.room d) = Some r1 /\
    Collection.count Player.client (Player.client p) (Room.players r1) = 1.
Proof.
  intros W E p w1.
  pose proof (CollectionFacts.getById_key _ _ _ _ E) as K.
  assert (W1 : wf w1 = true) by apply (perform_wf (JoinRoomEvent d)), W.
  destruct (Collection.getById Player.client (Room.players r) (Player.client p))
    as [q|] eqn:Q.
  - assert (E1 : w1 = w) by apply (onJoinRoom_duplicate d w r q E Q).
    rewrite E1. repeat split; [exact E1|].
    exists r. split; [exact E|].
    apply (CollectionFacts.unique_getById_count Player.client _ _ q); [|exact Q].
    apply (forallb_getById Room.name room_wf _ _ r (proj2 (wf_elim w W)) E).
  - set (r' := Room.mk (Room.name r) (Room.players r ++ [p])).
    assert (X : exec (onJoinRoom d) w =
                repository (synced w)
                  (Collection.write_back Room.name r' (rooms w))
                  (emitted w ++ [notify "room:join" (RoomPlayerData r' p);
                                 notify ("room:join:" ++ JoinRoom.room d)
                                   (RoomPlayerData r' p)])
                  (sent w)) by apply (onJoinRoom_added d w r E Q).
    fold w1 in X.
    assert (L : Collection.getById Room.name (rooms w1) (JoinRoom.room d)
                = Some r').
    { rewrite X. simpl.
      replace (JoinRoom.room d) with (Room.name r') by exact K.
      apply (CollectionFacts.getById_write_back Room.name _ r' r).
      simpl. now rewrite K. }
    destruct (getById_last Player.client (Room.players r) p) as [q Hq].
    repeat split.
    + now rewrite X.
    + exact L.
    + now rewrite X.
    + apply (onJoinRoom_duplicate d w1 r' q L Hq).
    + exists r'. split; [exact L|].
      apply (CollectionFacts.unique_getById_count Player.client _ _ q);
        [|exact Hq].
      apply (forallb_getById Room.name room_wf _ _ r' (proj2 (wf_elim w1 W1)) L).
Qed.

(** C2. A join-room event naming an existing room builds a player from the
    payload: its client key, name and color are those of [data.player].
    That player is added at the end of the room's players exactly when the
    room holds no player under the payload's client key; "room:join" and
    "room:join:<roomName>" are emitted in that case and only then.  The
    same event delivered a second time changes nothing, and the room then
    holds exactly one player under the payload's client key. *)
Theorem onJoinRoom_adds_once w d r :
  wf w = true ->
  Collection.getById Room.name (rooms w) (JoinRoom.room d) = Some r ->
  let pd := JoinRoom.player d in
  let p :=
    Player.new (PlayerData.client pd) (PlayerData.name pd)
      (PlayerData.color pd) in
  let w1 := exec (onJoinRoom d) w in
  (Player.client p = PlayerData.client pd /\
   Player.name p = PlayerData.name pd /\
   Player.color p = PlayerData.color pd) /\
  match Collection.getById Player.client (Room.players r)
          (PlayerData.client pd) with
  | None =>
      let r' := Room.mk (Room.name r) (Room.players r ++ [p]) in
      rooms w1 = Collection.write_back Room.name r' (rooms w) /\
      Collection.getById Room.name (rooms w1) (JoinRoom.room d) = Some r' /\
      Collection.getById Player.client (Room.players r')
        (PlayerData.client pd) = Some p /\
      emitted w1 =
      emitted w ++ [notify "room:join" (RoomPlayerData r' p);
                    notify ("room:join:" ++ JoinRoom.room d)
                      (RoomPlayerData r' p)]
  | Some _ => w1 = w
  end /\
  exec (onJoinRoom d) w1 = w1 /\
  exists r1,
    Collection.getById Room.name (rooms w1) (JoinRoom.room d) = Some r1 /\
    Collection.count Player.client (PlayerData.client pd) (Room.players r1)
    = 1.
Proof.
  intros W E pd p w1.
  split; [repeat split|].
  destruct (onJoinRoom_new_Player w d r W E) as (H & T & C).
  split; [|split; [exact T | exact C]].
  change (Player.client (new_Player (JoinRoom.player d)))
    with (PlayerData.client pd) in H.
  destruct (Collection.getById Player.client (Room.players r)
              (PlayerData.client pd)) eqn:Q; [exact H|].
  destruct H as (H1 & H2 & H3).
  split; [exact H1|]. split; [exact H2|]. split; [|exact H3].
  cbn [Room.players]. rewrite getById_app, Q.
  unfold Collection.getById, Collection.has_key. simpl.
  now rewrite String.eqb_refl.
Qed.

Lemma onJoinRoom_adds_once_witness :
  let w := exec (onNewRoom (NewRoom.mk "A" [])) RoomRepository_new in
  let d := JoinRoom.mk "A" (PlayerData.mk "P1" "Alice" "red") in
  let w1 := exec (onJoinRoom d) w in
  wf w = true /\
  rooms w1 = [Room.mk "A" [Player.mk "P1" "Alice" "red" false]] /\
  count_topic "room:join" (emitted w1) = 1 /\
  count_topic "room:join:A" (emitted w1) = 1 /\
  exec (onJoinRoom d) w1 = w1.
Proof.
  pose proof (onJoinRoom_adds_once
                (exec (onNewRoom (NewRoom.mk "A" [])) RoomRepository_new)
                (JoinRoom.mk "A" (PlayerData.mk "P1" "Alice" "red"))
                (Room.mk "A" []) eq_refl eq_refl) as H.
  destruct H as (_ & (H1 & _ & _ & _) & H3 & _).
  split; [reflexivity|]. split; [exact H1|].
  split; [reflexivity|]. split; [reflexivity|]. exact H3.
Defined.

(** ** The synced flag *)

Ltac other_topic :=
  rewrite count_topic_app; unfold count_topic at 2; simpl; lia.

Lemma perform_keeps_synced a w :
  is_refresh a = false ->
  synced w = true ->
  synced (exec (perform a) w) = true /\
  count_topic "synced" (emitted (exec (perform a) w)) =
  count_topic "synced" (emitted w).
Proof.
  intros R S.
  destruct a as [d|d|d|d|d|d|d| | | | | | |g]; simpl;
    try discriminate R; try (split; [exact S | reflexivity]).
  - rewrite onNewRoom_exec, S. simpl. split; [reflexivity|].
    destruct (Collection.getById Room.name (rooms w) (NewRoom.name d)).
    + now rewrite app_nil_r.
    + other_topic.
  - rewrite onCloseRoom_exec.
    destruct (Collection.getById Room.name (rooms w) (CloseRoom.room d));
      simpl; split; trivial. other_topic.
  - destruct (Collection.getById Room.name (rooms w) (JoinRoom.room d))
      as [r|] eqn:E; [|rewrite onJoinRoom_absent; auto].
    destruct (Collection.getById Player.client (Room.players r)
                (PlayerData.client (JoinRoom.player d))) as [q|] eqn:Q.
    + rewrite (onJoinRoom_duplicate d w r q); auto.
    + rewrite (onJoinRoom_added d w r E Q). simpl. split; trivial.
      other_topic.
  - rewrite onLeaveRoom_exec.
    destruct (Collection.getById Room.name (rooms w) (LeaveRoom.room d))
      as [r|]; auto.
    destruct (Collection.getById Player.client (Room.players r)
                (LeaveRoom.player d)); auto.
    simpl. split; trivial. other_topic.
  - rewrite onPlayerColor_exec.
    destruct (Collection.getById Room.name (rooms w) (PlayerColor.room d))
      as [r|]; auto.
    destruct (Collection.getById Player.client (Room.players r)
                (PlayerColor.player d)); auto.
    simpl. split; trivial. other_topic.
  - rewrite onPlayerReady_exec.
    destruct (Collection.getById Room.name (rooms w) (PlayerReady.room d))
      as [r|]; auto.
    destruct (Collection.getById Player.client (Room.players r)
                (PlayerReady.player d)); auto.
    simpl. split; trivial. other_topic.
  - rewrite onWarmupRoom_exec.
    destruct (Collection.getById Room.name (rooms w) (WarmupRoom.room d));
      auto.
    simpl. split; trivial. other_topic.
Qed.

Lemma run_keeps_synced acts w :
  forallb (fun a => negb (is_refresh a)) acts = true ->
  synced w = true ->
  synced (run acts w) = true /\
  count_topic "synced" (emitted (run acts w)) =
  count_topic "synced" (emitted w).
Proof.
  revert w. induction acts as [|a acts IH]; intros w R S; simpl.
  - now split.
  - simpl in R. apply andb_true_iff in R. destruct R as [Ra R].
    apply negb_true_iff in Ra.
    destruct (perform_keeps_synced a w Ra S) as [S1 C1].
    destruct (IH _ R S1) as [S2 C2].
    split; [exact S2 | congruence].
Qed.

(** C3. The flag is false after construction and after [refresh].  From a
    repository whose flag is false, a new-room event makes it true and
    emits "synced" once; whatever follows short of another [refresh], new-room
    events included, leaves the flag true and emits no further "synced". *)
Theorem synced_flips_once w d acts :
  synced w = false ->
  forallb (fun a => negb (is_refresh a)) acts = true ->
  let w1 := exec (onNewRoom d) w in
  let w' := run acts w1 in
  synced RoomRepository_new = false /\
  (forall g w0, synced (exec (refresh g) w0) = false) /\
  synced w1 = true /\
  count_topic "synced" (emitted w1) = S (count_topic "synced" (emitted w)) /\
  synced w' = true /\
  count_topic "synced" (emitted w') = count_topic "synced" (emitted w1).
Proof.
  intros S R w1 w'.
  split; [reflexivity|].
  split; [intros g w0; apply refresh_exec|].
  assert (S1 : synced w1 = true) by apply onNewRoom_synced.
  split; [exact S1|]. split.
  - unfold w1. rewrite onNewRoom_exec, S. simpl.
    rewrite !count_topic_app.
    set (n := count_topic "synced" (emitted w)).
    destruct (Collection.getById Room.name (rooms w) (NewRoom.name d));
      unfold count_topic; simpl; lia.
  - apply run_keeps_synced; assumption.
Qed.

Lemma synced_flips_once_witness :
  let d1 := NewRoom.mk "lobby1" [PlayerData.mk "c1" "Alice" "red"] in
  let d2 := NewRoom.mk "lobby2" [] in
  let w1 := exec (onNewRoom d1) RoomRepository_new in
  let w' := run [NewRoomEvent d2; NewRoomEvent d1] w1 in
  synced w1 = true /\
  count_topic "synced" (emitted w1) = 1 /\
  synced w' = true /\
  count_topic "synced" (emitted w') = count_topic "synced" (emitted w1).
Proof.
  pose proof (synced_flips_once RoomRepository_new
                (NewRoom.mk "lobby1" [PlayerData.mk "c1" "Alice" "red"])
                [NewRoomEvent (NewRoom.mk "lobby2" []);
                 NewRoomEvent
                   (NewRoom.mk "lobby1" [PlayerData.mk "c1" "Alice" "red"])]
                eq_refl eq_refl) as (_ & _ & H).
  exact H.
Defined.

(** ** Events about a player of a room *)

(** Looking up again a player that was changed in place. *)
Lemma lookup_changed_player rs r p p' k c :
  Collection.getById Room.name rs k = Some r ->
  Collection.getById Player.client (Room.players r) c = Some p ->
  Player.client p' = c ->
  let r' := Room.with_player p' r in
  Collection.getById Room.name (Collection.write_back Room.name r' rs) k
  = Some r' /\
  Collection.getById Player.client (Room.players r') c = Some p'.
Proof.
  intros E Q C r'.
  pose proof (CollectionFacts.getById_key _ _ _ _ E) as K.
  split.
  - replace k with (Room.name r') by exact K.
    apply (CollectionFacts.getById_write_back Room.name _ r' r).
    simpl. now rewrite K.
  - unfold r', Room.with_player. simpl. subst c.
    now apply (CollectionFacts.getById_write_back Player.client _ p' p).
Qed.

(** C4. A leave-room event changes nothing and emits nothing when the room
    it names is absent or when that room holds no player with the given
    key.  When both are there the player is removed from that room and
    "room:leave" and "room:leave:<roomName>" are both emitted. *)
Theorem onLeaveRoom_guarded w d :
  wf w = true ->
  let w1 := exec (onLeaveRoom d) w in
  match Collection.getById Room.name (rooms w) (LeaveRoom.room d) with
  | None => w1 = w
  | Some r =>
      match Collection.getById Player.client (Room.players r)
              (LeaveRoom.player d) with
      | None => w1 = w
      | Some p =>
          exists r',
            Room.removePlayer p r = (true, r') /\
            rooms w1 = Collection.write_back Room.name r' (rooms w) /\
            Collection.getById Room.name (rooms w1) (LeaveRoom.room d)
            = Some r' /\
            Collection.getById Player.client (Room.players r')
              (LeaveRoom.player d) = None /\
            synced w1 = synced w /\
            sent w1 = sent w /\
            emitted w1 =
            emitted w ++ [notify "room:leave" (RoomPlayerData r' p);
                          notify ("room:leave:" ++ LeaveRoom.room d)
                            (RoomPlayerData r' p)]
      end
  end.
Proof.
  intros W w1. unfold w1. rewrite onLeaveRoom_exec.
  destruct (Collection.getById Room.name (rooms w) (LeaveRoom.room d))
    as [r|] eqn:E; [|reflexivity].
  destruct (Collection.getById Player.client (Room.players r)
              (LeaveRoom.player d)) as [p|] eqn:Q; [|reflexivity].
  pose proof (CollectionFacts.getById_key _ _ _ _ E) as K.
  pose proof (CollectionFacts.getById_key _ _ _ _ Q) as C.
  set (r' := Room.mk (Room.name r)
               (Collection.remove_key Player.client (LeaveRoom.player d)
                  (Room.players r))).
  exists r'. simpl. repeat split.
  - unfold Room.removePlayer, Collection.remove. now rewrite C, Q.
  - replace (LeaveRoom.room d) with (Room.name r') by exact K.
    apply (CollectionFacts.getById_write_back Room.name _ r' r).
    simpl. now rewrite K.
  - apply CollectionFacts.getById_None. simpl.
    apply CollectionFacts.count_remove_key.
    apply (forallb_getById Room.name room_wf _ _ r (proj2 (wf_elim w W)) E).
Qed.

Lemma onLeaveRoom_guarded_witness :
  let w := run [NewRoomEvent (NewRoom.mk "A" [PlayerData.mk "P1" "Alice" "red"])]
             RoomRepository_new in
  wf w = true /\
  exec (onLeaveRoom (LeaveRoom.mk "A" "P2")) w = w /\
  exec (onLeaveRoom (LeaveRoom.mk "B" "P1")) w = w /\
  rooms (exec (onLeaveRoom (LeaveRoom.mk "A" "P1")) w) = [Room.mk "A" []].
Proof.
  split; [reflexivity|]. split; [|split].
  - exact (onLeaveRoom_guarded
             (run [NewRoomEvent
                     (NewRoom.mk "A" [PlayerData.mk "P1" "Alice" "red"])]
                RoomRepository_new)
             (LeaveRoom.mk "A" "P2") eq_refl).
  - exact (onLeaveRoom_guarded
             (run [NewRoomEvent
                     (NewRoom.mk "A" [PlayerData.mk "P1" "Alice" "red"])]
                RoomRepository_new)
             (LeaveRoom.mk "B" "P1") eq_refl).
  - destruct (onLeaveRoom_guarded
                (run [NewRoomEvent
                        (NewRoom.mk "A" [PlayerData.mk "P1" "Alice" "red"])]
                   RoomRepository_new)
                (LeaveRoom.mk "A" "P1") eq_refl) as (r' & R & H & _).
    injection R as <-. exact H.
Defined.

(** C5. Whatever the repository held, after [refresh] the flag is false and
    the collection of rooms is a new, empty one. *)
Theorem refresh_discards g w :
  synced (exec (refresh g) w) = false /\
  rooms (exec (refresh g) w) = Collection.new.
Proof.
  destruct (refresh_exec g w) as (S & R & _). now split.
Qed.

(** C6. Each of [create], [join], [addPlayer], [leave], [setColor] and
    [setReady] hands exactly one message to the socket, made of its payload
    and of the callback it was given, and leaves the flag, the rooms and
    their players, and the emitted notifications as they were. *)
Theorem requests_only_send w name room player color callback :
  only_sends w (create name callback) "room:create"
    [VObject [("name"%string, name)]; callback] /\
  only_sends w (join room callback) "room:join"
    [VObject [("room"%string, room)]; callback] /\
  only_sends w (addPlayer name callback) "room:player:add"
    [VObject [("name"%string, name)]; callback] /\
  only_sends w (leave callback) "room:leave" [callback] /\
  only_sends w (setColor room player color callback) "room:color"
    [VObject [("room"%string, room); ("player"%string, player);
              ("color"%string, color)]; callback] /\
  only_sends w (setReady room player callback) "room:ready"
    [VObject [("room"%string, room); ("player"%string, player)]; callback].
Proof.
  unfold only_sends. repeat split.
Qed.

(** C7. A player-ready event for a player of an existing room stores the
    boolean it carries: whatever the flag was, it is [b1] after an event
    carrying [b1] and [b2] after a further event carrying [b2]; so [true]
    and then [false] leave it false. *)
Theorem onPlayerReady_overwrites w room client b0 b1 b2 :
  ready_flag w room client = Some b0 ->
  let w1 := exec (onPlayerReady (PlayerReady.mk room client b1)) w in
  let w2 := exec (onPlayerReady (PlayerReady.mk room client b2)) w1 in
  ready_flag w1 room client = Some b1 /\
  ready_flag w2 room client = Some b2.
Proof.
  assert (step : forall w b0 b,
             ready_flag w room client = Some b0 ->
             ready_flag (exec (onPlayerReady (PlayerReady.mk room client b)) w)
               room client = Some b).
  { clear. intros w b0 b H. unfold ready_flag in H.
    rewrite onPlayerReady_exec. simpl.
    destruct (Collection.getById Room.name (rooms w) room) as [r|] eqn:E;
      [|discriminate].
    destruct (Collection.getById Player.client (Room.players r) client)
      as [p|] eqn:Q; [|discriminate].
    destruct (lookup_changed_player (rooms w) r p (Player.toggleReady b p)
                room client E Q) as [L1 L2].
    { exact (CollectionFacts.getById_key _ _ _ _ Q). }
    unfold ready_flag. simpl. now rewrite L1, L2. }
  intros H w1 w2. split.
  - exact (step w b0 b1 H).
  - exact (step w1 b1 b2 (step w b0 b1 H)).
Qed.

Lemma onPlayerReady_overwrites_witness :
  let w := run [NewRoomEvent
                  (NewRoom.mk "lobby1" [PlayerData.mk "c1" "Alice" "red"])]
             RoomRepository_new in
  let w1 := exec (onPlayerReady (PlayerReady.mk "lobby1" "c1" true)) w in
  let w2 := exec (onPlayerReady (PlayerReady.mk "lobby1" "c1" false)) w1 in
  ready_flag w "lobby1" "c1" = Some false /\
  ready_flag w1 "lobby1" "c1" = Some true /\
  ready_flag w2 "lobby1" "c1" = Some false.
Proof.
  split; [reflexivity|].
  exact (onPlayerReady_overwrites
           (run [NewRoomEvent
                   (NewRoom.mk "lobby1" [PlayerData.mk "c1" "Alice" "red"])]
              RoomRepository_new)
           "lobby1" "c1" false true false eq_refl).
Defined.

(** C8. A room:start event never changes the flag, the rooms or their
    players, nor what was sent; it emits "room:start" and
    "room:start:<roomName>" when the room it names exists, and nothing
    otherwise. *)
Theorem onWarmupRoom_informational d w :
  let w1 := exec (onWarmupRoom d) w in
  synced w1 = synced w /\
  rooms w1 = rooms w /\
  sent w1 = sent w /\
  emitted w1 =
  emitted w ++
  match Collection.getById Room.name (rooms w) (WarmupRoom.room d) with
  | Some r => [notify "room:start" (RoomData r);
               notify ("room:start:" ++ WarmupRoom.room d) (RoomData r)]
  | None => []
  end.
Proof.
  simpl. rewrite onWarmupRoom_exec.
  destruct (Collection.getById Room.name (rooms w) (WarmupRoom.room d)); simpl.
  - now repeat split.
  - now rewrite app_nil_r.
Qed.


(** A player [c1] sits in room A only: events that name room B, or the
    closed room, for [c1] do nothing. *)
Example player_events_other_room :
  let w := run [NewRoomEvent (NewRoom.mk "A" [PlayerData.mk "c1" "Alice" "red"]);
                NewRoomEvent (NewRoom.mk "B" [])]
             RoomRepository_new in
  exec (onPlayerColor (PlayerColor.mk "B" "c1" "blue")) w = w /\
  exec (onPlayerReady (PlayerReady.mk "B" "c1" true)) w = w /\
  exec (onPlayerColor (PlayerColor.mk "gone" "c1" "blue")) w = w.
Proof. repeat split. Qed.

(** ** The snapshot of a new room *)

Lemma firstn_snoc {A} (l : list A) i x :
  nth_error l i = Some x -> firstn (S i) l = firstn i l ++ [x].
Proof.
  revert i. induction l as [|y l IH]; intros [|i] H; simpl in *;
    try discriminate.
  - now injection H as ->.
  - f_equal. now apply IH.
Qed.

(** The loop, which counts the index down, is a left fold over the
    reversed prefix it walks. *)
Lemma add_players_down_fold ps n room :
  n <= length ps ->
  add_players_down ps n room =
  fold_left add_to_room (rev (map new_Player (firstn n ps))) room.
Proof.
  revert room. induction n as [|i IH]; intros room H; simpl; [reflexivity|].
  destruct (nth_error ps i) as [d|] eqn:E.
  - change (match ps with [] => [] | a :: l => a :: firstn i l end)
      with (firstn (S i) ps).
    rewrite (firstn_snoc ps i d E), map_app, rev_app_distr. simpl.
    apply IH. lia.
  - apply nth_error_None in E. lia.
Qed.

Lemma new_Room_fold d :
  new_Room d =
  fold_left add_to_room (rev (map new_Player (NewRoom.players d)))
    (Room.new (NewRoom.name d)).
Proof.
  unfold new_Room. rewrite add_players_down_fold by lia.
  now rewrite firstn_all.
Qed.

Lemma fold_add_fresh l room :
  Collection.unique_keys Player.client (Room.players room ++ l) = true ->
  Room.players (fold_left add_to_room l room) = Room.players room ++ l.
Proof.
  revert room. induction l as [|p l IH]; intros room U; simpl.
  - now rewrite app_nil_r.
  - assert (F : Collection.getById Player.client (Room.players room)
                  (Player.client p) = None).
    { apply CollectionFacts.getById_None.
      pose proof (proj1 (CollectionFacts.unique_keys_count _ _) U
                    (Player.client p)) as C.
      rewrite CollectionFacts.count_app in C.
      change (p :: l) with ([p] ++ l) in C.
      rewrite CollectionFacts.count_app, CollectionFacts.count_singleton,
        String.eqb_refl in C.
      lia. }
    assert (P : Room.players (add_to_room room p) = Room.players room ++ [p]).
    { unfold add_to_room. rewrite addPlayer_players.
      now rewrite (CollectionFacts.add_absent _ _ _ F). }
    rewrite IH; rewrite P, <- app_assoc; [reflexivity | exact U].
Qed.

Lemma count_new_Player k ps :
  Collection.count Player.client k (map new_Player ps) =
  Collection.count PlayerData.client k ps.
Proof.
  unfold Collection.count.
  induction ps as [|d ps IH]; simpl; [reflexivity|].
  change (Collection.has_key Player.client k (new_Player d))
    with (Collection.has_key PlayerData.client k d).
  destruct (Collection.has_key PlayerData.client k d); simpl; now rewrite IH.
Qed.

Lemma count_rev {T} (key : T -> string) k (c : list T) :
  Collection.count key k (rev c) = Collection.count key k c.
Proof.
  induction c as [|x c IH]; simpl; [reflexivity|].
  rewrite CollectionFacts.count_app, IH, CollectionFacts.count_singleton.
  unfold Collection.count, Collection.has_key. simpl.
  destruct (String.eqb (key x) k); simpl; lia.
Qed.

(** C10, as amended.  The players of a new-room snapshot [p0, ..., pn] are
    handed to [addPlayer] from the last one to the first.  When the client
    keys of the snapshot are pairwise distinct, the room that the handler
    stores under a name that was not there holds them in that order: its
    collection of players is the payload reversed, client key by client
    key. *)
Theorem onNewRoom_players_reversed d w :
  Collection.unique_keys PlayerData.client (NewRoom.players d) = true ->
  Collection.getById Room.name (rooms w) (NewRoom.name d) = None ->
  let ps := map new_Player (NewRoom.players d) in
  new_Room d = fold_left add_to_room (rev ps) (Room.new (NewRoom.name d)) /\
  Room.players (new_Room d) = rev ps /\
  Collection.getById Room.name (rooms (exec (onNewRoom d) w)) (NewRoom.name d)
  = Some (new_Room d) /\
  map Player.client (Room.players (new_Room d)) =
  rev (map PlayerData.client (NewRoom.players d)).
Proof.
  intros U A ps.
  assert (P : Room.players (new_Room d) = rev ps).
  { rewrite new_Room_fold. fold ps. rewrite fold_add_fresh; [reflexivity|].
    simpl. apply CollectionFacts.unique_keys_count. intros k.
    unfold ps. rewrite count_rev, count_new_Player.
    apply (proj1 (CollectionFacts.unique_keys_count _ _) U). }
  split; [apply new_Room_fold|]. split; [exact P|]. split.
  - rewrite onNewRoom_exec, A. simpl.
    rewrite getById_app, A.
    unfold Collection.getById, Collection.has_key. simpl.
    now rewrite new_Room_name, String.eqb_refl.
  - rewrite P. unfold ps. now rewrite map_rev, map_map.
Qed.

(** The statement without the condition on the keys fails: for a snapshot
    that names the client [c1] twice, the stored room holds one player, the
    one built from the later entry, and not the two of the reversed
    payload. *)
Lemma onNewRoom_repeated_key_not_reversed :
  let d := NewRoom.mk "lobby1"
             [PlayerData.mk "c1" "Alice" "red";
              PlayerData.mk "c1" "Bob" "blue"] in
  exists room,
    Collection.getById Room.name
      (rooms (exec (onNewRoom d) RoomRepository_new)) "lobby1" = Some room /\
    Room.players room = [Player.mk "c1" "Bob" "blue" false] /\
    Room.players room <> rev (map new_Player (NewRoom.players d)) /\
    Room.players room <>
    [Player.mk "c1" "Bob" "blue" false; Player.mk "c1" "Alice" "red" false].
Proof.
  intros d. exists (new_Room d).
  split; [reflexivity|]. split; [reflexivity|].
  split; discriminate.
Qed.

Lemma onNewRoom_players_reversed_witness :
  let d := NewRoom.mk "lobby1"
             [PlayerData.mk "c0" "Alice" "red";
              PlayerData.mk "c1" "Bob" "blue";
              PlayerData.mk "c2" "Carol" "green"] in
  Room.players (new_Room d) =
  [Player.mk "c2" "Carol" "green" false;
   Player.mk "c1" "Bob" "blue" false;
   Player.mk "c0" "Alice" "red" false] /\
  Collection.getById Room.name
    (rooms (exec (onNewRoom d) RoomRepository_new)) "lobby1"
  = Some (new_Room d).
Proof.
  destruct (onNewRoom_players_reversed
              (NewRoom.mk "lobby1"
                 [PlayerData.mk "c0" "Alice" "red";
                  PlayerData.mk "c1" "Bob" "blue";
                  PlayerData.mk "c2" "Carol" "green"])
              RoomRepository_new eq_refl eq_refl) as (_ & H1 & H2 & _).
  split; [exact H1 | exact H2].
Defined.

(** When a payload repeats a client key, the entry met first by the
    downward loop, the later one of the payload, is the one that stays. *)
Example new_Room_repeated_client :
  Room.players
    (new_Room (NewRoom.mk "lobby1"
                 [PlayerData.mk "c1" "Alice" "red";
                  PlayerData.mk "c1" "Bob" "blue"]))
  = [Player.mk "c1" "Bob" "blue" false].
Proof. reflexivity. Qed.

(** * Further properties *)

(** ** More on the keyed collection *)

Section MoreKeyed.

Context {T : Type}.
Variable key : T -> string.

Lemma existsb_has_key (c : list T) k :
  existsb (Collection.has_key key k) c = true <-> In k (map key c).
Proof.
  induction c as [|y c IH]; simpl; [split; [discriminate | tauto]|].
  rewrite orb_true_iff, IH. unfold Collection.has_key.
  now rewrite String.eqb_eq.
Qed.

Lemma unique_keys_NoDup (c : list T) :
  Collection.unique_keys key c = true <-> NoDup (map key c).
Proof.
  induction c as [|y c IH]; simpl.
  - split; [constructor | reflexivity].
  - rewrite andb_true_iff, negb_true_iff, IH. split.
    + intros [N D]. constructor; [|exact D].
      intros I. apply existsb_has_key in I. congruence.
    + intros D. inversion D as [|? ? N D']. subst. split; [|exact D'].
      destruct (existsb (Collection.has_key key (key y)) c) eqn:E;
        [|reflexivity].
      apply existsb_has_key in E. contradiction.
Qed.

Lemma write_back_twice (c : list T) x y :
  key x = key y ->
  Collection.write_back key x (Collection.write_back key y c) =
  Collection.write_back key x c.
Proof.
  intros K. induction c as [|z c IH]; simpl; [reflexivity|].
  rewrite <- K.
  destruct (Collection.has_key key (key x) z) eqn:E; simpl.
  - unfold Collection.has_key. now rewrite K, String.eqb_refl.
  - now rewrite E, IH.
Qed.

Lemma write_back_length (c : list T) x :
  length (Collection.write_back key x c) = length c.
Proof.
  rewrite <- (length_map key), CollectionFacts.write_back_keys.
  apply length_map.
Qed.

Lemma remove_key_last (c : list T) x :
  Collection.getById key c (key x) = None ->
  Collection.remove_key key (key x) (c ++ [x]) = c.
Proof.
  unfold Collection.getById.
  induction c as [|y c IH]; simpl.
  - intros _. unfold Collection.has_key. now rewrite String.eqb_refl.
  - destruct (Collection.has_key key (key x) y); [discriminate|].
    intros H. now rewrite IH.
Qed.

Lemma remove_key_length (c : list T) k x :
  Collection.getById key c k = Some x ->
  S (length (Collection.remove_key key k c)) = length c.
Proof.
  unfold Collection.getById.
  induction c as [|y c IH]; simpl; [discriminate|].
  destruct (Collection.has_key key k y); simpl; [reflexivity|].
  intros H. now rewrite IH.
Qed.

Lemma getById_remove_key_other (c : list T) k k' :
  k <> k' ->
  Collection.getById key (Collection.remove_key key k' c) k =
  Collection.getById key c k.
Proof.
  intros N. unfold Collection.getById.
  induction c as [|y c IH]; simpl; [reflexivity|].
  destruct (Collection.has_key key k' y) eqn:E; simpl.
  - unfold Collection.has_key in *. apply String.eqb_eq in E.
    rewrite E. apply String.eqb_neq in N. rewrite String.eqb_sym in N.
    now rewrite N.
  - now rewrite IH.
Qed.

Lemma getById_remove_key_same (c : list T) k :
  Collection.unique_keys key c = true ->
  Collection.getById key (Collection.remove_key key k c) k = None.
Proof.
  intros U. apply CollectionFacts.getById_None.
  now apply CollectionFacts.count_remove_key.
Qed.

Lemma getById_last_other (c : list T) x k :
  key x <> k ->
  Collection.getById key (c ++ [x]) k = Collection.getById key c k.
Proof.
  intros N. rewrite getById_app.
  destruct (Collection.getById key c k); [reflexivity|].
  unfold Collection.getById, Collection.has_key. simpl.
  apply String.eqb_neq in N. now rewrite N.
Qed.

End MoreKeyed.

Lemma get_run name w :
  get name w = (Normal (Collection.getById Room.name (rooms w) name), w).
Proof. reflexivity. Qed.

Lemma reachable_run acts w : reachable w -> reachable (run acts w).
Proof.
  revert w. induction acts as [|a acts IH]; intros w R; simpl; [exact R|].
  apply IH. now constructor.
Qed.

(** ** The invariant, in terms of the lists *)

(** X1. Whatever sequence of events, requests and refreshes a new
    repository goes through, no two of its rooms have the same name and no
    two players of a room have the same client key. *)
Theorem run_unique_keys acts :
  let w := run acts RoomRepository_new in
  NoDup (map Room.name (rooms w)) /\
  Forall (fun r => NoDup (map Player.client (Room.players r))) (rooms w).
Proof.
  intros w.
  assert (W : wf w = true)
    by (apply reachable_wf, reachable_run; constructor).
  apply wf_elim in W. destruct W as [U F]. split.
  - now apply unique_keys_NoDup.
  - apply Forall_forall. intros r I.
    rewrite forallb_forall in F.
    apply unique_keys_NoDup. exact (F r I).
Qed.

(** ** Closing a room *)

(** X2. A close-room event for a room that is not there changes nothing.
    For a room that is there, the room is taken out of the collection, so
    that [get] no longer finds it, "room:close" is emitted once with that
    room, the flag and the socket are left alone, and the same event
    delivered again changes nothing. *)
Theorem onCloseRoom_guarded w d :
  wf w = true ->
  let w1 := exec (onCloseRoom d) w in
  match Collection.getById Room.name (rooms w) (CloseRoom.room d) with
  | None => w1 = w
  | Some r =>
      completion (get (CloseRoom.room d)) w1 = Normal None /\
      S (length (rooms w1)) = length (rooms w) /\
      emitted w1 = emitted w ++ [notify "room:close" (RoomData r)] /\
      synced w1 = synced w /\
      sent w1 = sent w /\
      exec (onCloseRoom d) w1 = w1
  end.
Proof.
  intros W w1. unfold w1. rewrite onCloseRoom_exec.
  destruct (Collection.getById Room.name (rooms w) (CloseRoom.room d))
    as [r|] eqn:E; [|reflexivity].
  assert (G : Collection.getById Room.name
                (Collection.remove_key Room.name (CloseRoom.room d) (rooms w))
                (CloseRoom.room d) = None)
    by apply getById_remove_key_same, (wf_elim w W).
  unfold completion. rewrite get_run. simpl.
  repeat split.
  - now rewrite G.
  - apply (remove_key_length Room.name _ _ r E).
  - rewrite onCloseRoom_exec. simpl. now rewrite G.
Qed.

Lemma onCloseRoom_guarded_witness :
  let w := run [NewRoomEvent (NewRoom.mk "A" []);
                NewRoomEvent (NewRoom.mk "B" [])] RoomRepository_new in
  exec (onCloseRoom (CloseRoom.mk "C")) w = w /\
  rooms (exec (onCloseRoom (CloseRoom.mk "A")) w) = [Room.mk "B" []].
Proof.
  split.
  - exact (onCloseRoom_guarded
             (run [NewRoomEvent (NewRoom.mk "A" []);
                   NewRoomEvent (NewRoom.mk "B" [])] RoomRepository_new)
             (CloseRoom.mk "C") eq_refl).
  - reflexivity.
Defined.

(** X3. A new-room event for a name that is not there, followed by the
    close-room event for that name, gives back the collection of rooms as
    it was; the room that "room:close" carries is the one built from the
    snapshot. *)
Theorem new_then_close_restores w d :
  Collection.getById Room.name (rooms w) (NewRoom.name d) = None ->
  let w1 := exec (onNewRoom d) w in
  let w2 := exec (onCloseRoom (CloseRoom.mk (NewRoom.name d))) w1 in
  completion (get (NewRoom.name d)) w1 = Normal (Some (new_Room d)) /\
  rooms w2 = rooms w /\
  completion all w2 = completion all w /\
  emitted w2 = emitted w1 ++ [notify "room:close" (RoomData (new_Room d))].
Proof.
  intros A w1 w2.
  assert (R1 : rooms w1 = rooms w ++ [new_Room d])
    by (unfold w1; rewrite onNewRoom_exec, A; reflexivity).
  assert (G : Collection.getById Room.name (rooms w1) (NewRoom.name d)
              = Some (new_Room d)).
  { rewrite R1, getById_app, A.
    unfold Collection.getById, Collection.has_key. simpl.
    now rewrite new_Room_name, String.eqb_refl. }
  assert (R2 : rooms w2 = rooms w).
  { unfold w2. rewrite onCloseRoom_exec. simpl. rewrite G. simpl.
    rewrite R1, <- (new_Room_name d). apply remove_key_last.
    now rewrite new_Room_name. }
  split; [unfold completion; rewrite get_run; simpl; now rewrite G|].
  split; [exact R2|].
  split; [unfold completion, all, get_rooms; simpl; now rewrite R2|].
  unfold w2. rewrite onCloseRoom_exec. simpl. now rewrite G.
Qed.

Lemma new_then_close_restores_witness :
  let w := run [NewRoomEvent (NewRoom.mk "A" [])] RoomRepository_new in
  let d := NewRoom.mk "B" [PlayerData.mk "c1" "Alice" "red"] in
  rooms (exec (onCloseRoom (CloseRoom.mk "B")) (exec (onNewRoom d) w))
  = rooms w.
Proof.
  exact (proj1 (proj2 (new_then_close_restores
           (run [NewRoomEvent (NewRoom.mk "A" [])] RoomRepository_new)
           (NewRoom.mk "B" [PlayerData.mk "c1" "Alice" "red"]) eq_refl))).
Defined.

(** ** Joining and leaving *)

Lemma onLeaveRoom_removed d w r p :
  Collection.getById Room.name (rooms w) (LeaveRoom.room d) = Some r ->
  Collection.getById Player.client (Room.players r) (LeaveRoom.player d)
  = Some p ->
  exec (onLeaveRoom d) w =
  let r' :=
    Room.mk (Room.name r)
      (Collection.remove_key Player.client (LeaveRoom.player d)
         (Room.players r)) in
  repository (synced w) (Collection.write_back Room.name r' (rooms w))
    (emitted w ++ [notify "room:leave" (RoomPlayerData r' p);
                   notify ("room:leave:" ++ LeaveRoom.room d)
                     (RoomPlayerData r' p)])
    (sent w).
Proof.
  intros E Q. now rewrite onLeaveRoom_exec, E, Q.
Qed.

(** X4. In an existing room that has no player with the client key, a
    join-room event followed by the leave-room event for that key gives
    back the rooms as they were, and the four notifications are emitted in
    order: "room:join", "room:join:<room>", "room:leave",
    "room:leave:<room>". *)
Theorem join_then_leave_restores w d r :
  Collection.getById Room.name (rooms w) (JoinRoom.room d) = Some r ->
  Collection.getById Player.client (Room.players r)
    (PlayerData.client (JoinRoom.player d)) = None ->
  let p := new_Player (JoinRoom.player d) in
  let r1 := Room.mk (Room.name r) (Room.players r ++ [p]) in
  let w1 := exec (onJoinRoom d) w in
  let w2 :=
    exec (onLeaveRoom (LeaveRoom.mk (JoinRoom.room d) (Player.client p))) w1 in
  rooms w2 = rooms w /\
  emitted w2 =
  emitted w ++ [notify "room:join" (RoomPlayerData r1 p);
                notify ("room:join:" ++ JoinRoom.room d) (RoomPlayerData r1 p);
                notify "room:leave" (RoomPlayerData r p);
                notify ("room:leave:" ++ JoinRoom.room d) (RoomPlayerData r p)].
Proof.
  intros E Q p r1 w1 w2.
  pose proof (CollectionFacts.getById_key _ _ _ _ E) as K.
  assert (X : w1 =
              repository (synced w)
                (Collection.write_back Room.name r1 (rooms w))
                (emitted w ++ [notify "room:join" (RoomPlayerData r1 p);
                               notify ("room:join:" ++ JoinRoom.room d)
                                 (RoomPlayerData r1 p)])
                (sent w)) by apply (onJoinRoom_added d w r E Q).
  assert (L : Collection.getById Room.name (rooms w1) (JoinRoom.room d)
              = Some r1).
  { rewrite X. simpl.
    replace (JoinRoom.room d) with (Room.name r1) by exact K.
    apply (CollectionFacts.getById_write_back Room.name _ r1 r).
    simpl. now rewrite K. }
  assert (P : Collection.getById Player.client (Room.players r1)
                (Player.client p) = Some p).
  { simpl. rewrite getById_app.
    change (Player.client p) with (PlayerData.client (JoinRoom.player d)).
    rewrite Q. unfold Collection.getById, Collection.has_key. simpl.
    now rewrite String.eqb_refl. }
  assert (B : Room.mk (Room.name r1)
                (Collection.remove_key Player.client (Player.client p)
                   (Room.players r1)) = r).
  { unfold r1. cbn [Room.name Room.players].
    rewrite (remove_key_last Player.client (Room.players r) p Q).
    now destruct r. }
  unfold w2.
  rewrite (onLeaveRoom_removed
             (LeaveRoom.mk (JoinRoom.room d) (Player.client p)) w1 r1 p L P).
  cbn [LeaveRoom.room LeaveRoom.player]. rewrite B.
  cbn [rooms emitted]. split.
  - rewrite X. cbn [rooms]. rewrite write_back_twice by reflexivity.
    apply CollectionFacts.write_back_same. now rewrite K.
  - rewrite X. cbn [emitted]. now rewrite <- app_assoc.
Qed.

Lemma join_then_leave_restores_witness :
  let w := run [NewRoomEvent (NewRoom.mk "A" [PlayerData.mk "P1" "Alice" "red"])]
             RoomRepository_new in
  let d := JoinRoom.mk "A" (PlayerData.mk "P2" "Bob" "blue") in
  rooms (exec (onLeaveRoom (LeaveRoom.mk "A" "P2")) (exec (onJoinRoom d) w))
  = rooms w.
Proof.
  exact (proj1 (join_then_leave_restores
           (run [NewRoomEvent
                   (NewRoom.mk "A" [PlayerData.mk "P1" "Alice" "red"])]
              RoomRepository_new)
           (JoinRoom.mk "A" (PlayerData.mk "P2" "Bob" "blue"))
           (Room.mk "A" [Player.mk "P1" "Alice" "red" false])
           eq_refl eq_refl)).
Defined.

(** X5. A leave-room event delivered twice acts once: the second delivery
    changes nothing and emits nothing. *)
Theorem onLeaveRoom_twice w d :
  wf w = true ->
  let w1 := exec (onLeaveRoom d) w in
  exec (onLeaveRoom d) w1 = w1.
Proof.
  intros W w1. unfold w1. rewrite (onLeaveRoom_exec d w).
  destruct (Collection.getById Room.name (rooms w) (LeaveRoom.room d))
    as [r|] eqn:E.
  2: { rewrite onLeaveRoom_exec. now rewrite E. }
  destruct (Collection.getById Player.client (Room.players r)
              (LeaveRoom.player d)) as [p|] eqn:Q.
  2: { rewrite onLeaveRoom_exec. now rewrite E, Q. }
  pose proof (CollectionFacts.getById_key _ _ _ _ E) as K.
  set (r' := Room.mk (Room.name r)
               (Collection.remove_key Player.client (LeaveRoom.player d)
                  (Room.players r))).
  cbv zeta. rewrite onLeaveRoom_exec. simpl.
  replace (Collection.getById Room.name
             (Collection.write_back Room.name r' (rooms w)) (LeaveRoom.room d))
    with (Some r').
  - simpl.
    now rewrite (getById_remove_key_same Player.client (Room.players r) _
                   (forallb_getById Room.name room_wf _ _ r
                      (proj2 (wf_elim w W)) E)).
  - symmetry. replace (LeaveRoom.room d) with (Room.name r') by exact K.
    apply (CollectionFacts.getById_write_back Room.name _ r' r).
    simpl. now rewrite K.
Qed.

Lemma onLeaveRoom_twice_witness :
  let w := run [NewRoomEvent (NewRoom.mk "A" [PlayerData.mk "P1" "Alice" "red"])]
             RoomRepository_new in
  let w1 := exec (onLeaveRoom (LeaveRoom.mk "A" "P1")) w in
  rooms w1 = [Room.mk "A" []] /\
  exec (onLeaveRoom (LeaveRoom.mk "A" "P1")) w1 = w1.
Proof.
  split; [reflexivity|].
  exact (onLeaveRoom_twice
           (run [NewRoomEvent
                   (NewRoom.mk "A" [PlayerData.mk "P1" "Alice" "red"])]
              RoomRepository_new)
           (LeaveRoom.mk "A" "P1") eq_refl).
Defined.

(** ** Looking a player up in a snapshot *)

Lemma fold_add_lookup l room c :
  Collection.getById Player.client
    (Room.players (fold_left add_to_room l room)) c =
  match Collection.getById Player.client (Room.players room) c with
  | Some p => Some p
  | None => Collection.getById Player.client l c
  end.
Proof.
  revert room. induction l as [|p l IH]; intros room; simpl.
  - now destruct (Collection.getById Player.client (Room.players room) c).
  - rewrite IH. unfold add_to_room. rewrite addPlayer_players.
    unfold Collection.add.
    destruct (Collection.getById Player.client (Room.players room)
                (Player.client p)) as [q|] eqn:Q; simpl.
    + destruct (Collection.getById Player.client (Room.players room) c)
        as [x|] eqn:X; [reflexivity|].
      unfold Collection.has_key.
      destruct (String.eqb_spec (Player.client p) c) as [<-|_];
        [congruence | reflexivity].
    + rewrite getById_app.
      destruct (Collection.getById Player.client (Room.players room) c);
        [reflexivity|].
      unfold Collection.getById. simpl.
      now destruct (Collection.has_key Player.client c p).
Qed.

Lemma getById_new_Player ps c :
  Collection.getById Player.client (map new_Player ps) c =
  option_map new_Player (Collection.getById PlayerData.client ps c).
Proof.
  unfold Collection.getById.
  induction ps as [|d ps IH]; simpl; [reflexivity|].
  change (Collection.has_key Player.client c (new_Player d))
    with (Collection.has_key PlayerData.client c d).
  now destruct (Collection.has_key PlayerData.client c d).
Qed.

(** X6. In the room that a new-room event builds, the player found under a
    client key is the one built from the last entry of the payload that
    carries this key, and there is none when no entry carries it. *)
Theorem new_Room_lookup d c :
  Collection.getById Player.client (Room.players (new_Room d)) c =
  option_map new_Player
    (Collection.getById PlayerData.client (rev (NewRoom.players d)) c).
Proof.
  rewrite new_Room_fold, fold_add_lookup. simpl.
  now rewrite <- map_rev, getById_new_Player.
Qed.

(** ** What an action leaves alone *)

Lemma neq_Some (a b : string) : Some a <> Some b -> a <> b.
Proof. congruence. Qed.

Lemma perform_lookup_other a w k :
  is_refresh a = false ->
  target a <> Some k ->
  Collection.getById Room.name (rooms (exec (perform a) w)) k =
  Collection.getById Room.name (rooms w) k.
Proof.
  intros R N.
  destruct a as [d|d|d|d|d|d|d| | | | | | |g]; simpl in *;
    try discriminate R; try reflexivity; apply neq_Some in N.
  - rewrite onNewRoom_exec. simpl.
    destruct (Collection.getById Room.name (rooms w) (NewRoom.name d));
      [reflexivity|].
    apply getById_last_other. now rewrite new_Room_name.
  - rewrite onCloseRoom_exec.
    destruct (Collection.getById Room.name (rooms w) (CloseRoom.room d));
      [|reflexivity].
    simpl. apply getById_remove_key_other. congruence.
  - destruct (Collection.getById Room.name (rooms w) (JoinRoom.room d))
      as [r|] eqn:E; [|now rewrite onJoinRoom_absent].
    destruct (Collection.getById Player.client (Room.players r)
                (PlayerData.client (JoinRoom.player d))) as [q|] eqn:Q.
    + now rewrite (onJoinRoom_duplicate d w r q).
    + rewrite (onJoinRoom_added d w r E Q). simpl.
      apply CollectionFacts.getById_write_back_other. simpl.
      now rewrite (CollectionFacts.getById_key _ _ _ _ E).
  - rewrite onLeaveRoom_exec.
    destruct (Collection.getById Room.name (rooms w) (LeaveRoom.room d))
      as [r|] eqn:E; [|reflexivity].
    destruct (Collection.getById Player.client (Room.players r)
                (LeaveRoom.player d)); [|reflexivity].
    simpl. apply CollectionFacts.getById_write_back_other. simpl.
    now rewrite (CollectionFacts.getById_key _ _ _ _ E).
  - rewrite onPlayerColor_exec.
    destruct (Collection.getById Room.name (rooms w) (PlayerColor.room d))
      as [r|] eqn:E; [|reflexivity].
    destruct (Collection.getById Player.client (Room.players r)
                (PlayerColor.player d)); [|reflexivity].
    simpl. apply CollectionFacts.getById_write_back_other. simpl.
    now rewrite (CollectionFacts.getById_key _ _ _ _ E).
  - rewrite onPlayerReady_exec.
    destruct (Collection.getById Room.name (rooms w) (PlayerReady.room d))
      as [r|] eqn:E; [|reflexivity].
    destruct (Collection.getById Player.client (Room.players r)
                (PlayerReady.player d)); [|reflexivity].
    simpl. apply CollectionFacts.getById_write_back_other. simpl.
    now rewrite (CollectionFacts.getById_key _ _ _ _ E).
  - rewrite onWarmupRoom_exec.
    now destruct (Collection.getById Room.name (rooms w) (WarmupRoom.room d)).
Qed.

(** X7. Short of [refresh], nothing changes what [get] returns for a room
    other than the one an event names: its players, their colors and their
    ready flags stay as they are. *)
Theorem perform_other_rooms a w k :
  is_refresh a = false ->
  target a <> Some k ->
  completion (get k) (exec (perform a) w) = completion (get k) w.
Proof.
  intros R N. unfold completion. rewrite !get_run. simpl.
  now rewrite perform_lookup_other.
Qed.

Lemma perform_other_rooms_witness :
  let w := run [NewRoomEvent (NewRoom.mk "A" [PlayerData.mk "c1" "Alice" "red"]);
                NewRoomEvent (NewRoom.mk "B" [PlayerData.mk "c1" "Alice" "red"])]
             RoomRepository_new in
  completion (get "A")
    (exec (onPlayerColor (PlayerColor.mk "B" "c1" "blue")) w)
  = Normal (Some (Room.mk "A" [Player.mk "c1" "Alice" "red" false])).
Proof.
  intros w.
  pose proof (perform_other_rooms
                (PlayerColorEvent (PlayerColor.mk "B" "c1" "blue")) w "A"
                eq_refl) as H.
  etransitivity; [apply H; discriminate | reflexivity].
Defined.

Lemma perform_inbound_sent a w :
  is_inbound a = true -> sent (exec (perform a) w) = sent w.
Proof.
  intros I.
  destruct a as [d|d|d|d|d|d|d| | | | | | |g]; simpl in *;
    try discriminate I.
  - now rewrite onNewRoom_exec.
  - rewrite onCloseRoom_exec.
    now destruct (Collection.getById Room.name (rooms w) (CloseRoom.room d)).
  - destruct (Collection.getById Room.name (rooms w) (JoinRoom.room d))
      as [r|] eqn:E; [|now rewrite onJoinRoom_absent].
    destruct (Collection.getById Player.client (Room.players r)
                (PlayerData.client (JoinRoom.player d))) as [q|] eqn:Q.
    + now rewrite (onJoinRoom_duplicate d w r q).
    + now rewrite (onJoinRoom_added d w r E Q).
  - rewrite onLeaveRoom_exec.
    destruct (Collection.getById Room.name (rooms w) (LeaveRoom.room d))
      as [r|]; [|reflexivity].
    now destruct (Collection.getById Player.client (Room.players r)
                    (LeaveRoom.player d)).
  - rewrite onPlayerColor_exec.
    destruct (Collection.getById Room.name (rooms w) (PlayerColor.room d))
      as [r|]; [|reflexivity].
    now destruct (Collection.getById Player.client (Room.players r)
                    (PlayerColor.player d)).
  - rewrite onPlayerReady_exec.
    destruct (Collection.getById Room.name (rooms w) (PlayerReady.room d))
      as [r|]; [|reflexivity].
    now destruct (Collection.getById Player.client (Room.players r)
                    (PlayerReady.player d)).
  - rewrite onWarmupRoom_exec.
    now destruct (Collection.getById Room.name (rooms w) (WarmupRoom.room d)).
Qed.

(** X8. The handlers of the inbound events never write to the socket:
    however many events are delivered, the messages sent are those that
    were sent before. *)
Theorem inbound_never_sends acts w :
  forallb is_inbound acts = true ->
  sent (run acts w) = sent w.
Proof.
  revert w. induction acts as [|a acts IH]; intros w I; simpl;
    [reflexivity|].
  simpl in I. apply andb_true_iff in I. destruct I as [Ia I].
  rewrite (IH _ I). now apply perform_inbound_sent.
Qed.

Lemma inbound_never_sends_witness :
  sent (run [NewRoomEvent (NewRoom.mk "A" []);
             JoinRoomEvent (JoinRoom.mk "A" (PlayerData.mk "c1" "Alice" "red"));
             PlayerReadyEvent (PlayerReady.mk "A" "c1" true);
             WarmupRoomEvent (WarmupRoom.mk "A");
             LeaveRoomEvent (LeaveRoom.mk "A" "c1");
             CloseRoomEvent (CloseRoom.mk "A")]
          (exec (create (VString "A") VUndefined) RoomRepository_new))
  = [message "room:create" [VObject [("name"%string, VString "A")]; VUndefined]].
Proof.
  etransitivity; [apply inbound_never_sends | ]; reflexivity.
Defined.

(** ** How [refresh] completes *)

(** X9. [refresh] completes normally, with one "room:join" message sent,
    only when the global scope defines both [room] and [callback].  When
    [room] is not defined it throws a ReferenceError for [room], and when
    only [callback] is missing a ReferenceError for [callback]; in both
    cases nothing is sent.  It never emits a notification. *)
Theorem refresh_completion g w :
  (completion (refresh g) w, sent (exec (refresh g) w)) =
  match g "room"%string, g "callback"%string with
  | Some room, Some callback =>
      (Normal tt,
       sent w ++ [message "room:join"
                    [VObject [("room"%string, room)]; callback]])
  | Some _, None => (Throw (ReferenceError "callback"), sent w)
  | None, _ => (Throw (ReferenceError "room"), sent w)
  end /\
  emitted (exec (refresh g) w) = emitted w.
Proof.
  unfold refresh. js_unfold. simpl.
  destruct (g "room"%string); simpl; [|now split].
  destruct (g "callback"%string); simpl; now split.
Qed.

(** ** What a player event changes *)






Lemma with_player_same r p c :
  Collection.getById Player.client (Room.players r) c = Some p ->
  Room.with_player p r = r.
Proof.
  intros Q. unfold Room.with_player.
  rewrite CollectionFacts.write_back_same; [now destruct r|].
  now rewrite (CollectionFacts.getById_key _ _ _ _ Q).
Qed.

Lemma rooms_write_back_same rs r k :
  Collection.getById Room.name rs k = Some r ->
  Collection.write_back Room.name r rs = rs.
Proof.
  intros E. apply CollectionFacts.write_back_same.
  now rewrite (CollectionFacts.getById_key _ _ _ _ E).
Qed.

(** X12. Unlike the events that add or remove, a player-color or
    player-ready event that is delivered twice is acted upon twice: the
    second delivery leaves the rooms as the first left them, and emits the
    same room-scoped notification once more. *)
Theorem player_events_repeat w room client color ready r p :
  Collection.getById Room.name (rooms w) room = Some r ->
  Collection.getById Player.client (Room.players r) client = Some p ->
  (let d := PlayerColor.mk room client color in
   let w1 := exec (onPlayerColor d) w in
   let w2 := exec (onPlayerColor d) w1 in
   rooms w2 = rooms w1 /\
   exists n,
     topic n = ("room:player:color:" ++ room)%string /\
     emitted w1 = emitted w ++ [n] /\
     emitted w2 = emitted w ++ [n; n]) /\
  (let d := PlayerReady.mk room client ready in
   let w1 := exec (onPlayerReady d) w in
   let w2 := exec (onPlayerReady d) w1 in
   rooms w2 = rooms w1 /\
   exists n,
     topic n = ("room:player:ready:" ++ room)%string /\
     emitted w1 = emitted w ++ [n] /\
     emitted w2 = emitted w ++ [n; n]).
Proof.
  intros E Q.
  pose proof (CollectionFacts.getById_key _ _ _ _ Q) as C.
  split; intros d w1 w2.
  - set (p' := Player.setColor color p).
    destruct (lookup_changed_player (rooms w) r p p' _ _ E Q C) as [L1 L2].
    assert (X : w1 =
                repository (synced w)
                  (Collection.write_back Room.name (Room.with_player p' r)
                     (rooms w))
                  (emitted w ++ [notify ("room:player:color:" ++ room)
                                   (RoomPlayerData (Room.with_player p' r) p')])
                  (sent w))
      by (unfold w1; rewrite onPlayerColor_exec; simpl; now rewrite E, Q).
    assert (Y : w2 =
                repository (synced w1) (rooms w1)
                  (emitted w1 ++ [notify ("room:player:color:" ++ room)
                                    (RoomPlayerData (Room.with_player p' r) p')])
                  (sent w1)).
    { unfold w2. rewrite onPlayerColor_exec. simpl.
      replace (Collection.getById Room.name (rooms w1) room)
        with (Some (Room.with_player p' r)) by (now rewrite X).
      cbv iota. rewrite L2.
      change (Player.setColor color p') with p'.
      rewrite (with_player_same _ _ _ L2).
      rewrite (rooms_write_back_same (rooms w1) _ room); [reflexivity|].
      now rewrite X. }
    split; [now rewrite Y|].
    eexists. split; [|split].
    2: now rewrite X.
    + reflexivity.
    + rewrite Y, X. simpl. now rewrite <- app_assoc.
  - set (p' := Player.toggleReady ready p).
    destruct (lookup_changed_player (rooms w) r p p' _ _ E Q C) as [L1 L2].
    assert (X : w1 =
                repository (synced w)
                  (Collection.write_back Room.name (Room.with_player p' r)
                     (rooms w))
                  (emitted w ++ [notify ("room:player:ready:" ++ room)
                                   (RoomPlayerData (Room.with_player p' r) p')])
                  (sent w))
      by (unfold w1; rewrite onPlayerReady_exec; simpl; now rewrite E, Q).
    assert (Y : w2 =
                repository (synced w1) (rooms w1)
                  (emitted w1 ++ [notify ("room:player:ready:" ++ room)
                                    (RoomPlayerData (Room.with_player p' r) p')])
                  (sent w1)).
    { unfold w2. rewrite onPlayerReady_exec. simpl.
      replace (Collection.getById Room.name (rooms w1) room)
        with (Some (Room.with_player p' r)) by (now rewrite X).
      cbv iota. rewrite L2.
      change (Player.toggleReady ready p') with p'.
      rewrite (with_player_same _ _ _ L2).
      rewrite (rooms_write_back_same (rooms w1) _ room); [reflexivity|].
      now rewrite X. }
    split; [now rewrite Y|].
    eexists. split; [|split].
    2: now rewrite X.
    + reflexivity.
    + rewrite Y, X. simpl. now rewrite <- app_assoc.
Qed.

Lemma player_events_repeat_witness :
  let w := run [NewRoomEvent (NewRoom.mk "A" [PlayerData.mk "c1" "Alice" "red"])]
             RoomRepository_new in
  let d := PlayerColor.mk "A" "c1" "blue" in
  rooms (exec (onPlayerColor d) (exec (onPlayerColor d) w)) =
  rooms (exec (onPlayerColor d) w) /\
  count_topic "room:player:color:A"
    (emitted (exec (onPlayerColor d) (exec (onPlayerColor d) w))) = 2.
Proof.
  intros w d.
  destruct (player_events_repeat w "A" "c1" "blue" true
              (Room.mk "A" [Player.mk "c1" "Alice" "red" false])
              (Player.mk "c1" "Alice" "red" false) eq_refl eq_refl)
    as [(H & _) _].
  split; [exact H | reflexivity].
Defined.

(** ** A repository without rooms *)

Lemma perform_no_rooms a w :
  rooms w = [] ->
  is_inbound a = true ->
  is_new_room a = false ->
  exec (perform a) w = w.
Proof.
  intros E I N.
  destruct a as [d|d|d|d|d|d|d| | | | | | |g]; simpl in *;
    try discriminate I; try discriminate N.
  - rewrite onCloseRoom_exec. now rewrite E.
  - apply onJoinRoom_absent. now rewrite E.
  - rewrite onLeaveRoom_exec. now rewrite E.
  - rewrite onPlayerColor_exec. now rewrite E.
  - rewrite onPlayerReady_exec. now rewrite E.
  - rewrite onWarmupRoom_exec. now rewrite E.
Qed.

(** X13. While the repository holds no room, as after construction or
    after [refresh], every inbound event other than new-room is ignored:
    nothing changes and nothing is emitted. *)
Theorem no_rooms_ignores a w :
  rooms w = [] ->
  is_inbound a = true ->
  is_new_room a = false ->
  exec (perform a) w = w /\
  completion all (exec (perform a) w) = Normal [].
Proof.
  intros E I N. rewrite (perform_no_rooms a w E I N).
  split; [reflexivity|].
  unfold completion, all, get_rooms. simpl. now rewrite E.
Qed.

Lemma no_rooms_ignores_witness :
  let w := exec (refresh (fun _ => None))
             (run [NewRoomEvent
                     (NewRoom.mk "A" [PlayerData.mk "c1" "Alice" "red"])]
                RoomRepository_new) in
  exec (onLeaveRoom (LeaveRoom.mk "A" "c1")) w = w.
Proof.
  exact (proj1 (no_rooms_ignores (LeaveRoomEvent (LeaveRoom.mk "A" "c1"))
           (exec (refresh (fun _ => None))
              (run [NewRoomEvent
                      (NewRoom.mk "A" [PlayerData.mk "c1" "Alice" "red"])]
                 RoomRepository_new))
           eq_refl eq_refl eq_refl)).
Defined.

Lemma perform_unsynced a w :
  (synced w = false -> rooms w = []) ->
  synced (exec (perform a) w) = false -> rooms (exec (perform a) w) = [].
Proof.
  intros J.
  destruct (is_refresh a) eqn:R.
  { destruct a; try discriminate R. intros _. apply refresh_exec. }
  destruct (is_new_room a) eqn:N.
  { destruct a; try discriminate N. simpl. now rewrite onNewRoom_synced. }
  destruct (is_inbound a) eqn:I.
  - destruct (synced w) eqn:S.
    + destruct (perform_keeps_synced a w R S) as [S' _]. congruence.
    + rewrite (perform_no_rooms a w (J eq_refl) I N). intros _. now apply J.
  - destruct a; try discriminate I; try discriminate R; exact J.
Qed.

(** X14. Between actions, that is once each handler or method called on a
    repository that started new has returned, the flag is false only when
    no room is held: [all] then returns the empty collection.  The moment
    inside [onNewRoom] at which "room:new" is emitted comes before
    [setSynced] and is not covered. *)
Theorem unsynced_has_no_rooms acts :
  let w := run acts RoomRepository_new in
  synced w = false -> completion all w = Normal [].
Proof.
  intros w S.
  assert (J : forall acts w0,
             (synced w0 = false -> rooms w0 = []) ->
             synced (run acts w0) = false -> rooms (run acts w0) = []).
  { clear. intros acts. induction acts as [|a acts IH]; intros w0 J; simpl.
    - exact J.
    - apply IH. now apply perform_unsynced. }
  unfold completion, all, get_rooms. simpl. f_equal.
  apply (J acts RoomRepository_new); [reflexivity | exact S].
Qed.

Lemma unsynced_has_no_rooms_witness :
  let w := run [NewRoomEvent (NewRoom.mk "A" []);
                JoinRoomEvent (JoinRoom.mk "A" (PlayerData.mk "c1" "Alice" "red"));
                Refresh (fun _ => None);
                JoinRoomEvent (JoinRoom.mk "A" (PlayerData.mk "c2" "Bob" "blue"))]
             RoomRepository_new in
  synced w = false /\ completion all w = Normal [].
Proof.
  split; [reflexivity|].
  exact (unsynced_has_no_rooms
           [NewRoomEvent (NewRoom.mk "A" []);
            JoinRoomEvent (JoinRoom.mk "A" (PlayerData.mk "c1" "Alice" "red"));
            Refresh (fun _ => None);
            JoinRoomEvent (JoinRoom.mk "A" (PlayerData.mk "c2" "Bob" "blue"))]
           eq_refl).
Defined.

(** ** Following the rooms through the notifications *)

Ltac count_topics w :=
  rewrite ?count_topic_app, ?length_app, ?write_back_length;
  set (n := count_topic "room:new" (emitted w)) in *;
  set (c := count_topic "room:close" (emitted w)) in *;
  unfold count_topic; simpl; lia.

Lemma perform_tracked a w :
  is_refresh a = false -> tracked w -> tracked (exec (perform a) w).
Proof.
  unfold tracked. intros R T.
  destruct a as [d|d|d|d|d|d|d| | | | | | |g]; simpl;
    try discriminate R; try exact T.
  - rewrite onNewRoom_exec. simpl.
    destruct (Collection.getById Room.name (rooms w) (NewRoom.name d)),
      (synced w); count_topics w.
  - rewrite onCloseRoom_exec.
    destruct (Collection.getById Room.name (rooms w) (CloseRoom.room d))
      as [r|] eqn:E; [|exact T].
    simpl. pose proof (remove_key_length Room.name _ _ _ E).
    count_topics w.
  - destruct (Collection.getById Room.name (rooms w) (JoinRoom.room d))
      as [r|] eqn:E; [|now rewrite onJoinRoom_absent].
    destruct (Collection.getById Player.client (Room.players r)
                (PlayerData.client (JoinRoom.player d))) as [q|] eqn:Q.
    + now rewrite (onJoinRoom_duplicate d w r q).
    + rewrite (onJoinRoom_added d w r E Q). simpl. count_topics w.
  - rewrite onLeaveRoom_exec.
    destruct (Collection.getById Room.name (rooms w) (LeaveRoom.room d))
      as [r|]; [|exact T].
    destruct (Collection.getById Player.client (Room.players r)
                (LeaveRoom.player d)); [|exact T].
    simpl. count_topics w.
  - rewrite onPlayerColor_exec.
    destruct (Collection.getById Room.name (rooms w) (PlayerColor.room d))
      as [r|]; [|exact T].
    destruct (Collection.getById Player.client (Room.players r)
                (PlayerColor.player d)); [|exact T].
    simpl. count_topics w.
  - rewrite onPlayerReady_exec.
    destruct (Collection.getById Room.name (rooms w) (PlayerReady.room d))
      as [r|]; [|exact T].
    destruct (Collection.getById Player.client (Room.players r)
                (PlayerReady.player d)); [|exact T].
    simpl. count_topics w.
  - rewrite onWarmupRoom_exec.
    destruct (Collection.getById Room.name (rooms w) (WarmupRoom.room d));
      [|exact T].
    simpl. count_topics w.
Qed.

(** X15. As long as [refresh] is not called, a subscriber can follow the
    number of rooms from the notifications alone: the rooms held are as
    many as the "room:new" notifications emitted less the "room:close"
    ones. *)
Theorem rooms_tracked_by_notifications acts :
  forallb (fun a => negb (is_refresh a)) acts = true ->
  let w := run acts RoomRepository_new in
  count_topic "room:new" (emitted w) =
  length (rooms w) + count_topic "room:close" (emitted w).
Proof.
  intros R w.
  assert (G : forall acts w0,
             forallb (fun a => negb (is_refresh a)) acts = true ->
             tracked w0 -> tracked (run acts w0)).
  { clear. intros acts. induction acts as [|a acts IH]; intros w0 R T; simpl.
    - exact T.
    - simpl in R. apply andb_true_iff in R. destruct R as [Ra R].
      apply negb_true_iff in Ra. apply IH; [exact R|].
      now apply perform_tracked. }
  apply (G acts RoomRepository_new R). reflexivity.
Qed.

Lemma rooms_tracked_by_notifications_witness :
  let w := run [NewRoomEvent (NewRoom.mk "A" []);
                NewRoomEvent (NewRoom.mk "B" []);
                NewRoomEvent (NewRoom.mk "A" []);
                CloseRoomEvent (CloseRoom.mk "A");
                CloseRoomEvent (CloseRoom.mk "A")]
             RoomRepository_new in
  count_topic "room:new" (emitted w) = 2 /\
  count_topic "room:close" (emitted w) = 1 /\
  length (rooms w) = 1.
Proof.
  intros w.
  pose proof (rooms_tracked_by_notifications
                [NewRoomEvent (NewRoom.mk "A" []);
                 NewRoomEvent (NewRoom.mk "B" []);
                 NewRoomEvent (NewRoom.mk "A" []);
                 CloseRoomEvent (CloseRoom.mk "A");
                 CloseRoomEvent (CloseRoom.mk "A")] eq_refl) as H.
  split; [reflexivity|]. split; [reflexivity|].
  apply (Nat.add_cancel_r _ _ (count_topic "room:close" (emitted w))).
  symmetry. exact H.
Defined.

(** ** The other players of a room *)



(** ** Starting over *)

(** X17. Whatever the repository held, the first new-room event after
    [refresh] leaves it with exactly the room built from that event, with
    the flag set, and emits "room:new" and then "synced". *)
Theorem refresh_then_new g d w :
  let w0 := exec (refresh g) w in
  let w1 := exec (onNewRoom d) w0 in
  completion all w1 = Normal [new_Room d] /\
  synced w1 = true /\
  emitted w1 =
  emitted w ++ [notify "room:new" (RoomData (new_Room d));
                notify "synced" NoData] /\
  sent w1 = sent w0.
Proof.
  intros w0 w1.
  destruct (refresh_exec g w) as (S & R & E). fold w0 in S, R, E.
  unfold w1. rewrite onNewRoom_exec, R, S, E.
  unfold completion, all, get_rooms. simpl. repeat split.
Qed.
